(** * problem_report: the label classification and normalisation core

    A shallow embedding of
      - [src/processing/classify.py]      (fingerprint, response decoding,
                                           prompt, classification driver),
      - [src/processing/translate.py]     (vocabulary translator),
      - [src/processing/assemble_data.py] (label merger),
    followed by the properties of the specification that concern them.

    Conventions.
      - A Python [str] is the list of its Unicode code points ([list N]);
        [U "..."] reads a literal of this file (UTF-8) into that form.
      - Python integers are [Z].
      - A Python [dict] used as a map is a [gmap]; a decoded JSON value keeps
        its members in an association list, in document order.
      - A call that can raise returns a [result]; code that also touches the
        outside world (oracle, cache file) runs in the monad [M]. *)

From Stdlib Require Import ZArith NArith List Bool Ascii String Lia.
From stdpp Require Import base option list gmap.

Open Scope N_scope.
Open Scope list_scope.

(** ** Python strings *)

Module PyStr.

Abbreviation str := (list N).

Definition bytes_of_literal (s : string) : list N :=
  map N_of_ascii (list_ascii_of_string s).

(** UTF-8 decoding of a literal of this file (well-formed by construction;
    a truncated sequence is dropped). *)
Fixpoint utf8_decode (l : list N) : list N :=
  match l with
  | [] => []
  | b0 :: r0 =>
    if b0 <? 0x80 then b0 :: utf8_decode r0
    else match r0 with
    | [] => []
    | b1 :: r1 =>
      if b0 <? 0xE0 then ((b0 - 0xC0) * 64 + (b1 - 0x80)) :: utf8_decode r1
      else match r1 with
      | [] => []
      | b2 :: r2 =>
        if b0 <? 0xF0
        then ((b0 - 0xE0) * 4096 + (b1 - 0x80) * 64 + (b2 - 0x80)) :: utf8_decode r2
        else match r2 with
        | [] => []
        | b3 :: r3 =>
          ((b0 - 0xF0) * 262144 + (b1 - 0x80) * 4096 + (b2 - 0x80) * 64 + (b3 - 0x80))
            :: utf8_decode r3
        end
      end
    end
  end.

Definition U (s : string) : str := utf8_decode (bytes_of_literal s).

(** [s.encode("utf-8")]: a lone surrogate (and anything that is not a code
    point) raises UnicodeEncodeError, here [None]. *)
Definition utf8_encode_cp (c : N) : option (list N) :=
  if c <? 0x80 then Some [c]
  else if c <? 0x800 then Some [0xC0 + c / 64; 0x80 + c mod 64]
  else if (0xD800 <=? c) && (c <? 0xE000) then None
  else if c <? 0x10000
       then Some [0xE0 + c / 4096; 0x80 + (c / 64) mod 64; 0x80 + c mod 64]
  else if c <? 0x110000
       then Some [0xF0 + c / 262144; 0x80 + (c / 4096) mod 64;
                  0x80 + (c / 64) mod 64; 0x80 + c mod 64]
  else None.

Fixpoint utf8_encode (s : str) : option (list N) :=
  match s with
  | [] => Some []
  | c :: r =>
    match utf8_encode_cp c, utf8_encode r with
    | Some b, Some br => Some (b ++ br)
    | _, _ => None
    end
  end.

Definition str_eqb (a b : str) : bool := bool_decide (a = b).

(** [sep.join(parts)] *)
Fixpoint join (sep : str) (parts : list str) : str :=
  match parts with
  | [] => []
  | [p] => p
  | p :: rest => p ++ sep ++ join sep rest
  end.

(** The characters [str.strip()] removes: those for which [str.isspace()]
    holds. *)
Definition is_space (c : N) : bool :=
  ((0x09 <=? c) && (c <=? 0x0D)) || ((0x1C <=? c) && (c <=? 0x20))
  || (c =? 0x85) || (c =? 0xA0) || (c =? 0x1680)
  || ((0x2000 <=? c) && (c <=? 0x200A))
  || (c =? 0x2028) || (c =? 0x2029) || (c =? 0x202F) || (c =? 0x205F)
  || (c =? 0x3000).

Fixpoint lstrip_by (p : N -> bool) (s : str) : str :=
  match s with
  | [] => []
  | c :: r => if p c then lstrip_by p r else s
  end.

Definition rstrip_by (p : N -> bool) (s : str) : str :=
  rev (lstrip_by p (rev s)).

Definition strip_by (p : N -> bool) (s : str) : str :=
  rstrip_by p (lstrip_by p s).

(** [s.strip()] *)
Definition strip (s : str) : str := strip_by is_space s.

(** [s.strip(chars)] *)
Definition strip_chars (chars : str) (s : str) : str :=
  strip_by (fun c => existsb (N.eqb c) chars) s.

(** [s.startswith(p)] *)
Fixpoint startswith (p s : str) : bool :=
  match p, s with
  | [], _ => true
  | _ :: _, [] => false
  | a :: p', b :: s' => (a =? b) && startswith p' s'
  end.

(** [s.split("\n", 1)]: one part when [s] has no line feed, else the text
    before the first one and the text after it. *)
Fixpoint split_once (sep : N) (s : str) : list str :=
  match s with
  | [] => [[]]
  | c :: r =>
    if c =? sep then [[]; r]
    else match split_once sep r with
         | [a] => [c :: a]
         | a :: rest => (c :: a) :: rest
         | [] => [[c]]
         end
  end.

(** [str.lower()] on the alphabets the tables of this program are written
    in: Basic Latin, Latin-1, Cyrillic (and the Kelvin sign, the one other
    character that lowers to an ASCII letter); other characters are left as
    they are. *)
Definition lower_cp (c : N) : N :=
  if (0x41 <=? c) && (c <=? 0x5A) then c + 32
  else if (0xC0 <=? c) && (c <=? 0xDE) && negb (c =? 0xD7) then c + 32
  else if (0x400 <=? c) && (c <=? 0x40F) then c + 80
  else if (0x410 <=? c) && (c <=? 0x42F) then c + 32
  else if c =? 0x212A then 0x6B
  else c.

Definition lower (s : str) : str := map lower_cp s.

(** Decimal rendering of an integer, [str(i)] and the [{i}] of an f-string. *)
Definition digit_cp (d : N) : N := 0x30 + d.

Fixpoint digits_pos (fuel : nat) (n : N) (acc : str) : str :=
  match fuel with
  | O => acc
  | S f =>
    let acc' := digit_cp (n mod 10) :: acc in
    if n <? 10 then acc' else digits_pos f (n / 10) acc'
  end.

Definition str_of_N (n : N) : str := digits_pos (S (N.to_nat (N.log2 n))) n [].

Definition str_of_Z (z : Z) : str :=
  match z with
  | Z0 => [0x30]
  | Zpos p => str_of_N (Npos p)
  | Zneg p => 0x2D :: str_of_N (Npos p)
  end.

End PyStr.
Export PyStr.

(** ** hashlib.sha256 *)

Module Sha256.

Definition w32 (x : N) : N := N.land x 0xFFFFFFFF.
Definition add32 (x y : N) : N := w32 (x + y).
Definition rotr (n x : N) : N := N.lor (N.shiftr x n) (w32 (N.shiftl x (32 - n))).
Definition not32 (x : N) : N := N.lxor x 0xFFFFFFFF.

Definition Ch (x y z : N) := N.lxor (N.land x y) (N.land (not32 x) z).
Definition Maj (x y z : N) := N.lxor (N.lxor (N.land x y) (N.land x z)) (N.land y z).
Definition Sigma0 x := N.lxor (N.lxor (rotr 2 x) (rotr 13 x)) (rotr 22 x).
Definition Sigma1 x := N.lxor (N.lxor (rotr 6 x) (rotr 11 x)) (rotr 25 x).
Definition sigma0 x := N.lxor (N.lxor (rotr 7 x) (rotr 18 x)) (N.shiftr x 3).
Definition sigma1 x := N.lxor (N.lxor (rotr 17 x) (rotr 19 x)) (N.shiftr x 10).

(** The first 64 primes. *)
Definition is_prime (n : N) : bool :=
  (1 <? n) && forallb (fun d => negb (n mod d =? 0))
                      (map N.of_nat (seq 2 (N.to_nat n - 2))).

Definition primes : list N :=
  Eval vm_compute in firstn 64 (List.filter is_prime (map N.of_nat (seq 2 310))).

(** The integer cube root, one bit at a time from the top. *)
Fixpoint cbrt_bits (bits : nat) (n r : N) : N :=
  match bits with
  | O => r
  | S b =>
    let r' := r + 2 ^ N.of_nat b in
    cbrt_bits b n (if r' * r' * r' <=? n then r' else r)
  end.

(** The round constants: the first 32 bits of the fractional parts of the
    cube roots of the primes. *)
Definition K : list N :=
  Eval vm_compute in map (fun p => w32 (cbrt_bits 40 (p * 2 ^ 96) 0)) primes.

(** The initial hash value: the same of the square roots of the first 8
    primes. *)
Definition H0 : list N :=
  Eval vm_compute in map (fun p => w32 (N.sqrt (p * 2 ^ 64))) (firstn 8 primes).

(** Message padding: a 1 bit, zeros up to 56 mod 64 bytes, then the bit
    length on 8 bytes, big-endian. *)
Definition be_bytes (width : nat) (x : N) : list N :=
  map (fun i => N.land (N.shiftr x (8 * N.of_nat i)) 0xFF) (rev (seq 0 width)).

Definition pad (msg : list N) : list N :=
  let len := N.of_nat (length msg) in
  let zeros := N.to_nat ((119 - len mod 64) mod 64) in
  msg ++ [0x80] ++ repeat 0 zeros ++ be_bytes 8 (8 * len).

Fixpoint words (l : list N) : list N :=
  match l with
  | a :: b :: c :: d :: r =>
      (a * 16777216 + b * 65536 + c * 256 + d) :: words r
  | _ => []
  end.

(** The message schedule, kept most recent word first. *)
Fixpoint extend (n : nat) (w : list N) : list N :=
  match n with
  | O => w
  | S n' =>
    let x := add32 (add32 (sigma1 (nth 1 w 0)) (nth 6 w 0))
                   (add32 (sigma0 (nth 14 w 0)) (nth 15 w 0)) in
    extend n' (x :: w)
  end.

Definition schedule (block : list N) : list N := rev (extend 48 (rev block)).

Definition round (st : list N) (kw : N * N) : list N :=
  match st with
  | [a; b; c; d; e; f; g; h] =>
    let t1 := add32 (add32 (add32 h (Sigma1 e)) (add32 (Ch e f g) (fst kw))) (snd kw) in
    let t2 := add32 (Sigma0 a) (Maj a b c) in
    [add32 t1 t2; a; b; c; add32 d t1; e; f; g]
  | _ => st
  end.

Definition compress (h : list N) (block : list N) : list N :=
  let st := fold_left round (combine K (schedule block)) h in
  map (fun p => add32 (fst p) (snd p)) (combine h st).

Fixpoint blocks (fuel : nat) (ws : list N) : list (list N) :=
  match fuel, ws with
  | S f, _ :: _ => firstn 16 ws :: blocks f (skipn 16 ws)
  | _, _ => []
  end.

Definition sha256 (msg : list N) : list N :=
  let ws := words (pad msg) in
  fold_left compress (blocks (length ws) ws) H0.

Definition hex_digit (d : N) : N := if d <? 10 then 0x30 + d else 0x57 + d.

Definition hex_word (w : N) : str :=
  map (fun i => hex_digit (N.land (N.shiftr w (4 * N.of_nat i)) 0xF)) (rev (seq 0 8)).

(** [hashlib.sha256(b).hexdigest()] *)
Definition hexdigest (msg : list N) : str := concat (map hex_word (sha256 msg)).

End Sha256.

(** ** Exceptions *)

Inductive exn : Set :=
| JSONDecodeError | AttributeError | TypeError | ValueError | OverflowError
| KeyError | UnicodeEncodeError | OSError | OracleError.

Inductive result (A : Type) : Type :=
| Ok (a : A)
| Raise (e : exn).
Arguments Ok {A} a.
Arguments Raise {A} e.

Definition rbind {A B} (r : result A) (k : A -> result B) : result B :=
  match r with
  | Ok a => k a
  | Raise e => Raise e
  end.

Notation "x <~ c ;; k" := (rbind c (fun x => k))
  (at level 100, c at next level, right associativity).

Fixpoint rmap {A B} (f : A -> result B) (l : list A) : result (list B) :=
  match l with
  | [] => Ok []
  | a :: r => b <~ f a ;; br <~ rmap f r ;; Ok (b :: br)
  end.

(** ** Decoded JSON values, with the Python behaviour the code relies on *)

(** A Python float: not-a-number, an infinity, or the finite value
    [m * 2^e]. *)
Inductive py_float : Set :=
| FNan
| FInf (negative : bool)
| FFin (m e : Z).

#[warnings="-register-all"]
Inductive json : Set :=
| JNull
| JBool (b : bool)
| JInt (z : Z)
| JFloat (f : py_float)
| JStr (s : str)
| JArr (items : list json)
| JObj (members : list (str * json)).

Module Py.

(** [int(f)]: truncation towards zero; ValueError on nan, OverflowError on
    an infinity. *)
Definition int_of_float (f : py_float) : result Z :=
  match f with
  | FNan => Raise ValueError
  | FInf _ => Raise OverflowError
  | FFin m e => Ok (if (0 <=? e)%Z then (m * 2 ^ e)%Z else Z.quot m (2 ^ (- e)))
  end.

(** The integer a float is equal to, when there is one ([2.0 == 2]). *)
Definition float_as_int (f : py_float) : option Z :=
  match f with
  | FFin m e =>
    if (0 <=? e)%Z then Some (m * 2 ^ e)%Z
    else if (Z.rem m (2 ^ (- e)) =? 0)%Z then Some (Z.quot m (2 ^ (- e))) else None
  | _ => None
  end.

Definition int_of_bool (b : bool) : Z := if b then 1%Z else 0%Z.

(** Association lists as insertion-ordered dicts with string keys. *)
Fixpoint assoc_get {V} (k : str) (kv : list (str * V)) : option V :=
  match kv with
  | [] => None
  | (k', v) :: r => if str_eqb k k' then Some v else assoc_get k r
  end.

Fixpoint assoc_set {V} (k : str) (v : V) (kv : list (str * V)) : list (str * V) :=
  match kv with
  | [] => [(k, v)]
  | (k', v') :: r => if str_eqb k k' then (k, v) :: r else (k', v') :: assoc_set k v r
  end.

(** [d.get(k, default)]; only a dict has [get]. *)
Definition get (d : json) (k : str) (default : json) : result json :=
  match d with
  | JObj kv => Ok (match assoc_get k kv with Some v => v | None => default end)
  | _ => Raise AttributeError
  end.

Fixpoint is_infix (p s : str) : bool :=
  startswith p s || match s with [] => false | _ :: r => is_infix p r end.

Definition is_the_str (k : str) (j : json) : bool :=
  match j with JStr s => str_eqb k s | _ => false end.

(** [k in c] for a string [k]. *)
Definition contains (k : str) (c : json) : result bool :=
  match c with
  | JObj kv => Ok (bool_decide (is_Some (assoc_get k kv)))
  | JArr l => Ok (existsb (is_the_str k) l)
  | JStr s => Ok (is_infix k s)
  | _ => Raise TypeError
  end.

(** [c[k]] for a string [k]. *)
Definition getitem (k : str) (c : json) : result json :=
  match c with
  | JObj kv => match assoc_get k kv with Some v => Ok v | None => Raise KeyError end
  | _ => Raise TypeError
  end.

(** [c[k] = v] for a string [k]. *)
Definition setitem (k : str) (v : json) (c : json) : result json :=
  match c with
  | JObj kv => Ok (JObj (assoc_set k v kv))
  | _ => Raise TypeError
  end.

(** [for i in c]: the items of a list, the characters of a string, the keys
    of a dict. *)
Definition iter (c : json) : result (list json) :=
  match c with
  | JArr l => Ok l
  | JStr s => Ok (map (fun ch => JStr [ch]) s)
  | JObj kv => Ok (map (fun p => JStr (fst p)) kv)
  | _ => Raise TypeError
  end.

(** [len(c)] *)
Definition len (c : json) : result nat :=
  match c with
  | JArr l => Ok (length l)
  | JStr s => Ok (length s)
  | JObj kv => Ok (length kv)
  | _ => Raise TypeError
  end.

(** [c[idx]] for an integer [idx] within [len(c)]. *)
Definition index (c : json) (idx : nat) : result json :=
  match c with
  | JArr l => match nth_error l idx with Some v => Ok v | None => Raise KeyError end
  | JStr s => match nth_error s idx with Some ch => Ok (JStr [ch]) | None => Raise KeyError end
  | JObj _ => Raise KeyError
  | _ => Raise TypeError
  end.

(** The key under which a value is looked up in a dict with integer keys:
    [True] is [1], [2.0] is [2]; lists and dicts are unhashable. *)
Definition int_key (j : json) : result (option Z) :=
  match j with
  | JInt z => Ok (Some z)
  | JBool b => Ok (Some (int_of_bool b))
  | JFloat f => Ok (float_as_int f)
  | JNull | JStr _ => Ok None
  | JArr _ | JObj _ => Raise TypeError
  end.

(** [l[:n]] *)
Definition slice_to {A} (n : Z) (l : list A) : list A :=
  if (0 <=? n)%Z then firstn (Z.to_nat n) l
  else firstn (Z.to_nat (Z.of_nat (length l) + n)) l.

End Py.

(** ** classify.py: fingerprint *)

(** [_hash_text] *)
Definition _hash_text (s : str) : result str :=
  match utf8_encode s with
  | Some b => Ok (firstn 16 (Sha256.hexdigest b))
  | None => Raise UnicodeEncodeError
  end.

(** The cache key of line 111. *)
Definition cache_key (t : str) (problems_ru : list str) : result str :=
  _hash_text (t ++ U "|" ++ join (U "|") problems_ru).

(** ** The outside world *)

(** The cache file [cache/classify_cache.json]. *)
Inductive file_state : Type :=
| Absent
| Unreadable                (* exists, but reading it raises *)
| Content (text : str).

Record world : Type := mkWorld {
  oracle_calls : nat;                 (* requests sent to the oracle so far *)
  cache_dir_ok : bool;                (* [mkdir] of the cache directory succeeds *)
  cache_file : file_state;
  write_fails : option file_state;    (* [Some f]: writing the cache file raises
                                         and leaves it in state [f] *)
}.

(** The world after one more request to the oracle. *)
Definition count_call (w : world) : world :=
  mkWorld (S (oracle_calls w)) (cache_dir_ok w) (cache_file w) (write_fails w).

(** State over the world, with exceptions. *)
Definition M (A : Type) : Type := world -> result (A * world).

Definition ret {A} (a : A) : M A := fun w => Ok (a, w).
Definition bind {A B} (c : M A) (k : A -> M B) : M B :=
  fun w => match c w with
           | Ok (a, w') => k a w'
           | Raise e => Raise e
           end.
Definition lift {A} (r : result A) : M A :=
  fun w => match r with Ok a => Ok (a, w) | Raise e => Raise e end.

Notation "x <- c ;; k" := (bind c (fun x => k))
  (at level 100, c at next level, right associativity).

(** [for x in xs: st = body x st] *)
Fixpoint for_each {A S} (xs : list A) (body : A -> S -> M S) (st : S) : M S :=
  match xs with
  | [] => ret st
  | x :: r => st' <- body x st ;; for_each r body st'
  end.

(** What a call returned, leaving the world aside. *)
Definition returned {A} (r : result (A * world)) : result A :=
  match r with Ok (a, _) => Ok a | Raise e => Raise e end.

(** ** Data frames *)

(** A cell: missing ([pd.notna] is false), a string, or another scalar,
    carried with the text [str()] gives for it. *)
Inductive cell : Type :=
| CNa
| CStr (s : str)
| COther (shown : str).

Definition notna (c : cell) : bool :=
  match c with CNa => false | _ => true end.

Definition str_of_cell (c : cell) : str :=
  match c with
  | CNa => U "nan"
  | CStr s => s
  | COther s => s
  end.

(** A frame: its number of rows and its columns in order, each holding one
    cell per row. Column names are distinct (the readers of pandas rename
    duplicates). *)
Record frame : Type := mkFrame {
  nrows : nat;
  columns : list (str * list cell);
}.

(** [row[col]] for the row at position [i]. *)
Definition row_get (df : frame) (col : str) (i : nat) : result cell :=
  match Py.assoc_get col (columns df) with
  | Some cells => Ok (nth i cells CNa)
  | None => Raise KeyError
  end.

(** [df[name] = values]: the values must be one per row; an existing column
    of that name is replaced where it stands, a new one is appended. *)
Definition set_column (name : str) (values : list cell) (df : frame) : result frame :=
  if bool_decide (length values = nrows df)
  then Ok (mkFrame (nrows df) (Py.assoc_set name values (columns df)))
  else Raise ValueError.

(** ** classify.py *)

Record usage : Type := mkUsage {
  prompt_tokens : Z;
  completion_tokens : Z;
  total_tokens : Z;
}.

Definition usage_zero : usage := mkUsage 0 0 0.

Definition usage_add (a b : usage) : usage :=
  mkUsage (prompt_tokens a + prompt_tokens b)
          (completion_tokens a + completion_tokens b)
          (total_tokens a + total_tokens b).

Record message : Type := mkMessage { role : str; content : str }.

Record ClassificationParams : Type := mkParams { max_labels_per_text : Z }.

Definition default_params : ClassificationParams := mkParams 3.

Definition nl : str := [10].
Definition dquote : str := [34].

(** [translations.get(ru, {}).get(lang, "")] *)
Definition translation_of (translations : gmap str (gmap str str)) (ru lang : str) : str :=
  match translations !! ru with
  | Some per_lang => match per_lang !! lang with Some t => t | None => [] end
  | None => []
  end.

(** ["\n".join([f"{i}. {name}" for i, name in enumerate(names, 1)])] *)
Definition numbered (names : list str) : str :=
  join nl (imap (fun i name => str_of_Z (Z.of_nat i + 1) ++ U ". " ++ name) names).

(** [build_classify_prompt] *)
Definition build_classify_prompt
    (text : str) (problems_ru : list str)
    (translations : option (gmap str (gmap str str)))
    (langs : list str) (max_labels : Z) : list message :=
  let problems_block := numbered problems_ru in
  let translations_block :=
    match translations with
    | Some tr =>
      if bool_decide (tr <> ∅) && bool_decide (langs <> [])
      then fold_left (fun block lang =>
             let per_lang := map (fun ru => translation_of tr ru lang) problems_ru in
             block ++ nl ++ U "[" ++ lang ++ U "]" ++ nl ++ numbered per_lang)
           langs []
      else []
    | None => []
    end in
  let sys :=
    U "Ты опытный аналитик. Твоя задача — присвоить тексту одну или несколько проблем из заданного списка. "
    ++ U "Выбирать можно ТОЛЬКО из списка (по номерам). Не выдумывай новых меток. Верни только валидный JSON." in
  let usr :=
    nl ++ U "Текст:" ++ nl ++ text ++ nl ++ nl
    ++ U "Справочник проблем (RU):" ++ nl ++ problems_block ++ nl
    ++ translations_block ++ nl ++ nl
    ++ U "Требования:" ++ nl
    ++ U "- Верни до " ++ str_of_Z max_labels
    ++ U " меток (может быть 0) из списка, по убыванию релевантности." ++ nl
    ++ U "- Строго JSON без комментариев, формат:" ++ nl
    ++ U "{" ++ nl
    ++ U "  " ++ dquote ++ U "problem_ids" ++ dquote ++ U ": [1, 3, 5]" ++ nl
    ++ U "}" ++ nl in
  [ mkMessage (U "system") sys; mkMessage (U "user") (strip usr) ].

(** [{i + 1: ru for i, ru in enumerate(problems_ru)}] *)
Definition problems_index (problems_ru : list str) : gmap Z str :=
  fold_left (fun m p => <[ (Z.of_nat (fst p) + 1)%Z := snd p ]> m)
            (imap (fun i ru => (i, ru)) problems_ru) ∅.

(** The local variables of the loop of [classify_dataframe]. *)
Record loop_state : Type := mkLoop {
  usage_total : usage;
  candidates_ru : list str;
  first_ru : list str;
  per_lang_candidates : gmap str (list str);
  per_lang_first : gmap str (list str);
  cache : json;
}.

(** [d[lang].append(x)] *)
Definition append_at (lang : str) (x : str) (d : gmap str (list str))
  : result (gmap str (list str)) :=
  match d !! lang with
  | Some l => Ok (<[ lang := l ++ [x] ]> d)
  | None => Raise KeyError
  end.

(** [l[0] if l else ""] *)
Definition first_or_empty (l : list str) : str :=
  match l with
  | [] => []
  | x :: _ => x
  end.

Definition nonempty (s : str) : bool :=
  match s with [] => false | _ => true end.

(** [[int(i) for i in ids if isinstance(i, (int, float))]] *)
Fixpoint numeric_ids (items : list json) : result (list Z) :=
  match items with
  | [] => Ok []
  | JInt z :: r => zs <~ numeric_ids r ;; Ok (z :: zs)
  | JBool b :: r => zs <~ numeric_ids r ;; Ok (Py.int_of_bool b :: zs)
  | JFloat f :: r => z <~ Py.int_of_float f ;; zs <~ numeric_ids r ;; Ok (z :: zs)
  | _ :: r => numeric_ids r
  end.

(** [[problems_index_to_ru.get(i, "") for i in ids if i in problems_index_to_ru]] *)
Fixpoint resolve_ids (index : gmap Z str) (ids : list json) : result (list str) :=
  match ids with
  | [] => Ok []
  | i :: r =>
    k <~ Py.int_key i ;;
    match k ≫= (fun z => index !! z) with
    | Some ru => rest <~ resolve_ids index r ;; Ok (ru :: rest)
    | None => resolve_ids index r
    end
  end.

Section Driver.

(** [json.loads]; [None] stands for JSONDecodeError. *)
Variable json_loads : str -> option json.
(** [json.dumps(_, ensure_ascii=False, indent=2)] *)
Variable json_dumps : json -> str.
(** The oracle behind [chat_complete_ex(model, messages, temperature=0.0,
    max_tokens)]: what the request number [n] of the run answers, or [None]
    when the call raises. *)
Variable oracle : nat -> str -> list message -> Z -> option (str * usage).

(** [chat_complete_ex] *)
Definition chat_complete_ex (model : str) (messages : list message) (max_tokens : Z)
  : M (str * usage) :=
  fun w =>
    match oracle (oracle_calls w) model messages max_tokens with
    | Some r => Ok (r, count_call w)
    | None => Raise OracleError
    end.

(** [_safe_json_loads] *)
Definition _safe_json_loads (s : str) : result json :=
  let s := strip s in
  let s :=
    if startswith (U "```") s then
      let s := strip_chars (U "`") s in
      match split_once 10 s with
      | [hint; body] =>
        if existsb (str_eqb (lower hint)) [U "json"; U "javascript"; U "js"]
        then body else s
      | _ => s
      end
    else s in
  match json_loads s with
  | Some j => Ok j
  | None => Raise JSONDecodeError
  end.

Section Loop.

Variable model : str.                 (* cfg.models.classify *)
Variable df : frame.
Variable text_col : str.
Variable problems_ru : list str.
Variable translations : option (gmap str (gmap str str)).
Variable langs : list str.
Variable params : ClassificationParams.

(** [per_lang_candidates[lang].append(c); per_lang_first[lang].append(f)] *)
Definition append_pair (lang c f : str) (st : loop_state) : M loop_state :=
  plc <- lift (append_at lang c (per_lang_candidates st)) ;;
  plf <- lift (append_at lang f (per_lang_first st)) ;;
  ret (mkLoop (usage_total st) (candidates_ru st) (first_ru st) plc plf (cache st)).

(** Lines 136-139: the columns of one target language, for one row. *)
Definition append_lang_labels (ru_labels : list str) (lang : str) (st : loop_state)
  : M loop_state :=
  lang_labels <- lift (rmap (fun ru =>
                   match translations with
                   | Some tr => Ok (translation_of tr ru lang)
                   | None => Raise AttributeError
                   end) ru_labels) ;;
  let lang_labels := filter (fun s => nonempty s) lang_labels in
  append_pair lang (join (U "|") lang_labels) (first_or_empty lang_labels) st.

(** Lines 115-127: a cache miss. Returns the ids and the updated locals. *)
Definition classify_miss (t key : str) (st : loop_state) : M (json * loop_state) :=
  let msgs := build_classify_prompt t problems_ru translations langs
                                    (max_labels_per_text params) in
  r <- chat_complete_ex model msgs 800 ;;
  data <- lift (_safe_json_loads (fst r)) ;;
  ids <- lift (Py.get data (U "problem_ids") (JArr [])) ;;
  let total := usage_add (usage_total st) (snd r) in
  let items := match ids with JArr l => l | _ => [] end in
  zs <- lift (numeric_ids items) ;;
  let ids := JArr (map JInt (Py.slice_to (max_labels_per_text params) zs)) in
  cache' <- lift (Py.setitem key ids (cache st)) ;;
  ret (ids, mkLoop total (candidates_ru st) (first_ru st)
                   (per_lang_candidates st) (per_lang_first st) cache').

(** Lines 129-139: from the ids to the labels of the row. *)
Definition assign_labels (ids : json) (st : loop_state) : M loop_state :=
  items <- lift (Py.iter ids) ;;
  ru_labels <- lift (resolve_ids (problems_index problems_ru) items) ;;
  let ru_labels := filter (fun s => nonempty s) ru_labels in
  let st := mkLoop (usage_total st) (candidates_ru st ++ [join (U "|") ru_labels])
                   (first_ru st ++ [first_or_empty ru_labels])
                   (per_lang_candidates st) (per_lang_first st) (cache st) in
  for_each langs (append_lang_labels ru_labels) st.

(** Lines 101-139: the body of the loop, for the row at position [i]. *)
Definition classify_row (i : nat) (st : loop_state) : M loop_state :=
  c <- lift (row_get df text_col i) ;;
  let text_raw := if notna c then str_of_cell c else [] in
  let t := strip text_raw in
  if negb (nonempty t) then
    let st := mkLoop (usage_total st) (candidates_ru st ++ [[]]) (first_ru st ++ [[]])
                     (per_lang_candidates st) (per_lang_first st) (cache st) in
    for_each langs (fun lang => append_pair lang [] []) st
  else
    key <- lift (cache_key t problems_ru) ;;
    hit <- lift (Py.contains key (cache st)) ;;
    r <- (if hit : bool
          then ids <- lift (Py.getitem key (cache st)) ;; ret (ids, st)
          else classify_miss t key st) ;;
    assign_labels (fst r) (snd r).

(** Lines 90-96. *)
Definition load_cache : M json :=
  fun w =>
    if cache_dir_ok w then
      Ok (match cache_file w with
          | Content text =>
            match json_loads text with
            | Some j => j
            | None => JObj []
            end
          | Unreadable | Absent => JObj []
          end, w)
    else Raise OSError.

(** Lines 141-145: the write is attempted; whatever it raises is dropped. A
    text that cannot be encoded leaves the file opened and empty. *)
Definition save_cache (c : json) : M unit :=
  fun w =>
    let file :=
      match write_fails w with
      | Some f => f
      | None =>
        match utf8_encode (json_dumps c) with
        | Some _ => Content (json_dumps c)
        | None => Content []
        end
      end in
    Ok (tt, mkWorld (oracle_calls w) (cache_dir_ok w) file (write_fails w)).

(** [df_out[name] = d[lang]] *)
Definition set_lang_column (name : str) (d : gmap str (list str)) (lang : str) (out : frame)
  : result frame :=
  match d !! lang with
  | Some l => set_column name (map CStr l) out
  | None => Raise KeyError
  end.

Definition candidates_name (lang : str) : str := U "problem_" ++ lang ++ U "_candidates".
Definition first_name (lang : str) : str := U "problem_" ++ lang.

(** Lines 147-152. *)
Definition add_columns (st : loop_state) : result frame :=
  out <~ set_column (U "problem_russ_candidates") (map CStr (candidates_ru st)) df ;;
  out <~ set_column (U "problem_russ") (map CStr (first_ru st)) out ;;
  fold_left (fun acc lang =>
               out <~ acc ;;
               out <~ set_lang_column (candidates_name lang) (per_lang_candidates st) lang out ;;
               set_lang_column (first_name lang) (per_lang_first st) lang out)
            langs (Ok out).

Definition initial_state (c : json) : loop_state :=
  mkLoop usage_zero [] []
         (list_to_map (map (fun lang => (lang, [])) langs))
         (list_to_map (map (fun lang => (lang, [])) langs))
         c.

(** Lines 98-154: the run, once the cache [c] is loaded. *)
Definition classify_with_cache (c : json) : M (frame * usage) :=
  st <- for_each (seq 0 (nrows df)) classify_row (initial_state c) ;;
  _ <- save_cache (cache st) ;;
  out <- lift (add_columns st) ;;
  ret (out, usage_total st).

(** The body of [classify_dataframe], with [params] resolved. *)
Definition classify_dataframe_body : M (frame * usage) :=
  c <- load_cache ;;
  classify_with_cache c.

End Loop.

(** [classify_dataframe] *)
Definition classify_dataframe
    (model : str) (df : frame) (text_col : str) (problems_ru : list str)
    (translations : option (gmap str (gmap str str))) (langs : list str)
    (params : option ClassificationParams) : M (frame * usage) :=
  let params := match params with Some p => p | None => default_params end in
  classify_dataframe_body model df text_col problems_ru translations langs params.

(** *** translate.py *)

(** [repr] of a decoded float, list or dict. *)
Variable py_repr : json -> str.

(** [str(x)] for a decoded value. *)
Definition str_of_json (j : json) : str :=
  match j with
  | JStr s => s
  | JNull => U "None"
  | JBool true => U "True"
  | JBool false => U "False"
  | JInt z => str_of_Z z
  | _ => py_repr j
  end.

Definition build_translate_prompt (problems_ru langs : list str) : list message :=
  let numbered_block := numbered problems_ru in
  let languages_str := join (U ", ") langs in
  let sys :=
    U "Ты профессиональный переводчик. Переводи краткие словосочетания проблем строго по смыслу, без добавления новых слов. "
    ++ U "Верни только валидный JSON без комментариев." in
  let q := dquote in
  let usr :=
    nl ++ U "Исходные формулировки (RU), по одной на строку, с номерами:" ++ nl
    ++ numbered_block ++ nl ++ nl
    ++ U "Языки перевода (ISO 639-1): " ++ languages_str ++ nl ++ nl
    ++ U "Требования:" ++ nl
    ++ U "- Для каждого языка верни список переводов в том же порядке, что и входной список." ++ nl
    ++ U "- Формат ответа (JSON):" ++ nl
    ++ U "{" ++ nl
    ++ U "  " ++ q ++ U "translations" ++ q ++ U ": {" ++ nl
    ++ U "    " ++ q ++ U "<lang1>" ++ q ++ U ": [" ++ q ++ U "..." ++ q ++ U ", "
                ++ q ++ U "..." ++ q ++ U "]," ++ nl
    ++ U "    " ++ q ++ U "<lang2>" ++ q ++ U ": [" ++ q ++ U "..." ++ q ++ U ", "
                ++ q ++ U "..." ++ q ++ U "]" ++ nl
    ++ U "  }" ++ nl
    ++ U "}" ++ nl in
  [ mkMessage (U "system") sys; mkMessage (U "user") (strip usr) ].

(** [result[ru][lang] = t] *)
Definition set_translation (ru lang t : str) (res : gmap str (gmap str str))
  : result (gmap str (gmap str str)) :=
  match res !! ru with
  | Some d => Ok (<[ ru := <[ lang := t ]> d ]> res)
  | None => Raise KeyError
  end.

(** Lines 64-66: one label of the vocabulary, for one language. *)
Definition translate_entry (arr : json) (lang : str) (p : nat * str)
    (res : gmap str (gmap str str)) : result (gmap str (gmap str str)) :=
  n <~ Py.len arr ;;
  if bool_decide (fst p < n)%nat
  then v <~ Py.index arr (fst p) ;;
       set_translation (snd p) lang (strip (str_of_json v)) res
  else Ok res.

(** Lines 62-66: one language. *)
Definition translate_lang (translations : json) (problems_ru : list str) (lang : str)
    (res : gmap str (gmap str str)) : result (gmap str (gmap str str)) :=
  arr <~ Py.get translations lang (JArr []) ;;
  fold_left (fun acc p => res <~ acc ;; translate_entry arr lang p res)
            (imap (fun idx ru => (idx, ru)) problems_ru) (Ok res).

(** [translate_problems] (its [_safe_json_loads] is the one of classify.py,
    word for word). *)
Definition translate_problems (model : str) (problems_ru langs : list str)
  : M (gmap str (gmap str str) * usage) :=
  let messages := build_translate_prompt problems_ru langs in
  r <- chat_complete_ex model messages 2000 ;;
  data <- lift (_safe_json_loads (fst r)) ;;
  translations <- lift (Py.get data (U "translations") (JObj [])) ;;
  let res : gmap str (gmap str str) :=
    list_to_map (map (fun ru => (ru, ∅)) problems_ru) in
  res <- lift (fold_left (fun acc lang => res <~ acc ;;
                            translate_lang translations problems_ru lang res)
                         langs (Ok res)) ;;
  ret (res, snd r).

End Driver.

(** ** assemble_data.py: the label merger *)

Module Merger.

(** [_normalize_label], for the values its callers pass: [None] or a
    string. *)
Definition _normalize_label (s : option str) : str :=
  match s with
  | None => []
  | Some s => lower (strip s)
  end.

Definition ecology_synonyms : list str :=
  [ U "экологические проблемы"; U "экология"; U "загрязнение воздуха и воды";
    U "загрязнение воздуха"; U "загрязнение воды"; U "изменение климата";
    U "климатические изменения"; U "засуха"; U "засухи" ].

Definition power_synonyms : list str :=
  [ U "сбои электроснабжения"; U "перебои с электричеством";
    U "стоимость электроэнергии";
    U "проблемы с электроэнергией (сбои, высокая стоимость, дефицит)";
    U "электроэнергия" ].

Definition housing_synonyms : list str :=
  [ U "жилищные условия"; U "высокие цены на жильё и аренду";
    U "плохие жилищные условия и высокая стоимость жилья" ].

Definition inflation_synonyms : list str :=
  [ U "инфляция"; U "инфляция и рост цен"; U "высокие цены на продукты";
    U "высокие цены на топливо" ].

Definition ecology_category : str := U "Экология, климат и загрязнение".
Definition power_category : str := U "Электроэнергия: сбои и высокая стоимость".
Definition housing_category : str := U "Жильё: условия и высокая стоимость".
Definition inflation_category : str := U "Инфляция и рост цен (продукты, топливо)".

(** [x in synonyms] *)
Definition member (x : str) (synonyms : list str) : bool :=
  existsb (str_eqb x) synonyms.

(** [_merge_key_for_row] *)
Definition _merge_key_for_row (base_label : str) (ru_label : option str) : str :=
  let ru_norm := _normalize_label ru_label in
  let base_norm := _normalize_label (Some base_label) in
  if member ru_norm ecology_synonyms || member base_norm ecology_synonyms
  then ecology_category
  else if member ru_norm power_synonyms || member base_norm power_synonyms
  then power_category
  else if member ru_norm housing_synonyms || member base_norm housing_synonyms
  then housing_category
  else if member ru_norm inflation_synonyms || member base_norm inflation_synonyms
  then inflation_category
  else base_label.

(** The synonym table in the order the function walks it. *)
Definition synonym_table : list (list str * str) :=
  [ (ecology_synonyms, ecology_category); (power_synonyms, power_category);
    (housing_synonyms, housing_category); (inflation_synonyms, inflation_category) ].

End Merger.

(** ** A JSON reader and writer for running the model

    [Lite.loads] and [Lite.dumps] instantiate [json.loads] and [json.dumps]
    where the model is evaluated on concrete inputs. They cover the JSON the
    oracle contract and the cache file use: objects, arrays, integers,
    strings without escapes, [true], [false], [null]. *)

Module Lite.

Definition is_ws (c : N) : bool := (c =? 32) || (c =? 9) || (c =? 10) || (c =? 13).
Definition is_digit (c : N) : bool := (48 <=? c) && (c <=? 57).

Fixpoint skip_ws (s : str) : str :=
  match s with
  | c :: r => if is_ws c then skip_ws r else s
  | [] => []
  end.

Fixpoint read_digits (s : str) (acc : Z) : Z * str :=
  match s with
  | c :: r => if is_digit c then read_digits r (acc * 10 + Z.of_N (c - 48))%Z else (acc, s)
  | [] => (acc, [])
  end.

Fixpoint read_string (s : str) : option (str * str) :=
  match s with
  | [] => None
  | c :: r =>
    if c =? 34 then Some ([], r)
    else if (c =? 92) || (c <? 32) then None
    else match read_string r with
         | Some (body, rest) => Some (c :: body, rest)
         | None => None
         end
  end.

Definition read_int (s : str) : option (json * str) :=
  match s with
  | 48 :: r => match r with
               | c :: _ => if is_digit c then None else Some (JInt 0, r)
               | [] => Some (JInt 0, r)
               end
  | c :: _ => if is_digit c then let (z, r) := read_digits s 0 in Some (JInt z, r) else None
  | [] => None
  end.

Fixpoint read_value (fuel : nat) (s : str) : option (json * str) :=
  match fuel with
  | O => None
  | S fuel =>
    match skip_ws s with
    | 110 :: 117 :: 108 :: 108 :: r => Some (JNull, r)
    | 116 :: 114 :: 117 :: 101 :: r => Some (JBool true, r)
    | 102 :: 97 :: 108 :: 115 :: 101 :: r => Some (JBool false, r)
    | 34 :: r =>
      match read_string r with
      | Some (body, rest) => Some (JStr body, rest)
      | None => None
      end
    | 45 :: r =>
      match read_int r with
      | Some (JInt z, rest) => Some (JInt (- z), rest)
      | _ => None
      end
    | 91 :: r =>
      match skip_ws r with
      | 93 :: rest => Some (JArr [], rest)
      | _ => match read_items fuel r with
             | Some (items, rest) => Some (JArr items, rest)
             | None => None
             end
      end
    | 123 :: r =>
      match skip_ws r with
      | 125 :: rest => Some (JObj [], rest)
      | _ => match read_members fuel r with
             | Some (members, rest) =>
               Some (JObj (fold_left (fun acc kv => Py.assoc_set (fst kv) (snd kv) acc)
                                     members []), rest)
             | None => None
             end
      end
    | other => read_int other
    end
  end
with read_items (fuel : nat) (s : str) : option (list json * str) :=
  match fuel with
  | O => None
  | S fuel =>
    match read_value fuel s with
    | Some (v, r) =>
      match skip_ws r with
      | 44 :: r' => match read_items fuel r' with
                    | Some (vs, rest) => Some (v :: vs, rest)
                    | None => None
                    end
      | 93 :: rest => Some ([v], rest)
      | _ => None
      end
    | None => None
    end
  end
with read_members (fuel : nat) (s : str) : option (list (str * json) * str) :=
  match fuel with
  | O => None
  | S fuel =>
    match skip_ws s with
    | 34 :: r =>
      match read_string r with
      | Some (k, r1) =>
        match skip_ws r1 with
        | 58 :: r2 =>
          match read_value fuel r2 with
          | Some (v, r3) =>
            match skip_ws r3 with
            | 44 :: r4 => match read_members fuel r4 with
                          | Some (kvs, rest) => Some ((k, v) :: kvs, rest)
                          | None => None
                          end
            | 125 :: rest => Some ([(k, v)], rest)
            | _ => None
            end
          | None => None
          end
        | _ => None
        end
      | None => None
      end
    | _ => None
    end
  end.

Definition loads (s : str) : option json :=
  match read_value (S (length s)) s with
  | Some (j, rest) => match skip_ws rest with [] => Some j | _ => None end
  | None => None
  end.

Definition spaces (n : nat) : str := repeat 32 n.

Fixpoint dumps_at (ind : nat) (j : json) : str :=
  match j with
  | JNull => U "null"
  | JBool true => U "true"
  | JBool false => U "false"
  | JInt z => str_of_Z z
  | JFloat _ => U "NaN"
  | JStr s => dquote ++ s ++ dquote
  | JArr [] => U "[]"
  | JArr items =>
    U "[" ++ nl
    ++ join (U "," ++ nl) (map (fun x => spaces (ind + 2) ++ dumps_at (ind + 2) x) items)
    ++ nl ++ spaces ind ++ U "]"
  | JObj [] => U "{}"
  | JObj members =>
    U "{" ++ nl
    ++ join (U "," ++ nl)
         (map (fun kv => match kv with
                         | (k, v) => spaces (ind + 2) ++ dquote ++ k ++ dquote ++ U ": "
                                     ++ dumps_at (ind + 2) v
                         end) members)
    ++ nl ++ spaces ind ++ U "}"
  end.

Definition dumps (j : json) : str := dumps_at 0 j.

(** [repr] is not needed where the translations are strings. *)
Definition repr (j : json) : str := dumps j.

End Lite.

(** * Notions the properties are stated with *)

(** ** The loop of the driver *)

(** How often a language is requested. *)
Definition occurrences (lang : str) (langs : list str) : nat :=
  length (filter (fun x => x = lang) langs).

(** The columns of the target languages after one more row, whose value for
    [lang] is [x lang]: one value per occurrence of [lang] in [langs]. *)
Definition push_columns (x : str -> str) (langs : list str) (d : gmap str (list str))
  : gmap str (list str) :=
  fold_left (fun d lang => alter (fun l => l ++ [x lang]) lang d) langs d.

(** The labels of a row in a target language, from its base-language labels. *)
Definition lang_labels (translations : option (gmap str (gmap str str)))
    (ru_labels : list str) (lang : str) : list str :=
  filter (fun s => nonempty s)
         (map (fun ru => translation_of (default ∅ translations) ru lang) ru_labels).

(** The locals of the loop after a row whose base-language labels are
    [ru_labels]. *)
Definition push_row (translations : option (gmap str (gmap str str))) (langs : list str)
    (ru_labels : list str) (st : loop_state) : loop_state :=
  mkLoop (usage_total st)
         (candidates_ru st ++ [join (U "|") ru_labels])
         (first_ru st ++ [first_or_empty ru_labels])
         (push_columns (fun lang => join (U "|") (lang_labels translations ru_labels lang))
                       langs (per_lang_candidates st))
         (push_columns (fun lang => first_or_empty (lang_labels translations ru_labels lang))
                       langs (per_lang_first st))
         (cache st).

(** The loop invariant on the per-language dicts: every requested language
    has its two lists. *)
Definition has_langs (langs : list str) (st : loop_state) : Prop :=
  forall lang, lang ∈ langs ->
    is_Some (per_lang_candidates st !! lang) /\ is_Some (per_lang_first st !! lang).

(** An id the vocabulary has a label for, and that label. *)
Definition valid_id (problems_ru : list str) (z : Z) : bool :=
  (1 <=? z)%Z && (z <=? Z.of_nat (length problems_ru))%Z.

Definition label_of (problems_ru : list str) (z : Z) : str :=
  nth (Z.to_nat (z - 1)) problems_ru [].

(** The base-language labels of a row, from the ids (lines 129-130). *)
Definition labels_of_ids (problems_ru : list str) (ids : json) : result (list str) :=
  items <~ Py.iter ids ;;
  l <~ resolve_ids (problems_index problems_ru) items ;;
  Ok (filter (fun s => nonempty s) l).

(** The target-language columns can be filled: there is a translation map,
    or nothing to translate, or no language asked for. *)
Definition translatable (translations : option (gmap str (gmap str str)))
    (langs : list str) (ru_labels : list str) : Prop :=
  translations <> None \/ ru_labels = [] \/ langs = [].

(** Lines 101-102: the trimmed text of the row at position [i]. *)
Definition row_text (df : frame) (text_col : str) (i : nat) : result str :=
  c <~ row_get df text_col i ;;
  Ok (strip (if notna c then str_of_cell c else [])).

(** The list the response gives under [problem_ids] (lines 118, 123-124). *)
Definition response_items (members : list (str * json)) : list json :=
  match Py.assoc_get (U "problem_ids") members with
  | Some (JArr l) => l
  | _ => []
  end.

(** ** The cache file and the returned frame *)

(** The world with other files. *)
Definition with_files (cf : file_state) (wf : option file_state) (w : world) : world :=
  mkWorld (oracle_calls w) (cache_dir_ok w) cf wf.

(** A computation that neither reads nor writes the cache file. *)
Definition files_blind {A} (c : M A) : Prop :=
  forall w cf wf,
    c (with_files cf wf w)
    = match c w with
      | Ok (a, w') => Ok (a, with_files cf wf w')
      | Raise e => Raise e
      end.

(** The names of the columns the call sets, in the order it sets them. *)
Definition new_column_names (langs : list str) : list str :=
  [U "problem_russ_candidates"; U "problem_russ"]
  ++ flat_map (fun lang => [candidates_name lang; first_name lang]) langs.

(** ** The translator *)

(** Every label of the vocabulary has its dict. *)
Definition covers (problems_ru : list str) (res : gmap str (gmap str str)) : Prop :=
  forall ru, ru ∈ problems_ru -> is_Some (res !! ru).

(** ** Concrete inputs *)

Module Examples.

(** A literal in which ['] stands for the double quote. *)
Definition qq (s : string) : str :=
  map (fun c => if c =? 39 then 34 else c) (U s).

(** An oracle that answers every request with [resp]. *)
Definition answering (resp : str) : nat -> str -> list message -> Z -> option (str * usage) :=
  fun _ _ _ _ => Some (resp, mkUsage 10 2 12).

Definition fresh_world : world := mkWorld 0 true Absent None.

Definition vocabulary : list str := [U "power outages"; U "housing cost"].

Definition translations : gmap str (gmap str str) :=
  {[ U "power outages" := {[ U "en" := U "coupures" ]};
     U "housing cost" := {[ U "en" := U "loyers" ]} ]}.

Definition one_row : frame :=
  mkFrame 1 [ (U "text", [CStr (U "no electricity for 3 days")]) ].

Definition two_rows : frame :=
  mkFrame 2 [ (U "text", [CStr (U "no electricity for 3 days"); CStr (U "rent is too high")]) ].

Definition blank_rows : frame :=
  mkFrame 2 [ (U "text", [CStr (U "   "); CNa]) ].

(** The fingerprint of the text of [one_row] against [vocabulary]. *)
Definition one_row_key : str := U "3329557b738679e8".

(** The locals at the start of the loop, for one target language. *)
Definition start : loop_state := initial_state [U "en"] (JObj []).

End Examples.

(** * Properties *)

(** ** Fingerprint *)

Lemma round_length st kw : length (Sha256.round st kw) = length st.
Proof.
  unfold Sha256.round.
  do 9 (destruct st as [|? st]; try reflexivity).
Qed.

Lemma fold_round_length l : forall h, length (fold_left Sha256.round l h) = length h.
Proof.
  induction l as [|kw l IH]; intros h; simpl; [reflexivity|].
  rewrite IH. apply round_length.
Qed.

Lemma compress_length h block : length (Sha256.compress h block) = length h.
Proof.
  unfold Sha256.compress.
  rewrite length_map, length_combine, fold_round_length. lia.
Qed.

Lemma sha256_length msg : length (Sha256.sha256 msg) = 8%nat.
Proof.
  unfold Sha256.sha256.
  generalize (Sha256.blocks (length (Sha256.words (Sha256.pad msg)))
                            (Sha256.words (Sha256.pad msg))).
  intros bl.
  assert (H : forall h, length (fold_left Sha256.compress bl h) = length h).
  { induction bl as [|b bl IH]; intros h; simpl; [reflexivity|].
    rewrite IH. apply compress_length. }
  rewrite H. reflexivity.
Qed.

Lemma concat_hex_length ws : length (concat (map Sha256.hex_word ws)) = (8 * length ws)%nat.
Proof.
  induction ws as [|w ws IH]; [reflexivity|].
  cbn [map concat]. rewrite length_app, IH.
  unfold Sha256.hex_word. rewrite length_map. simpl length. lia.
Qed.

Lemma hexdigest_length msg : length (Sha256.hexdigest msg) = 64%nat.
Proof.
  unfold Sha256.hexdigest. rewrite concat_hex_length, sha256_length. reflexivity.
Qed.

Lemma hash_text_length s k : _hash_text s = Ok k -> length k = 16%nat.
Proof.
  unfold _hash_text. destruct (utf8_encode s) as [b|]; [|discriminate].
  intros [= <-]. rewrite length_firstn, hexdigest_length. reflexivity.
Qed.

(** C2, as stated, fails: two different (text, vocabulary) pairs with the
    same fingerprint. The text [a|b] with the vocabulary [c] and the text [a]
    with the vocabulary [b, c] are hashed through the same string [a|b|c]. *)
Lemma fingerprint_collision :
  (U "a|b", [U "c"]) <> (U "a", [U "b"; U "c"])
  /\ cache_key (U "a|b") [U "c"] = Ok (U "a52dd81bfd5e4e66")
  /\ cache_key (U "a") [U "b"; U "c"] = Ok (U "a52dd81bfd5e4e66").
Proof.
  split; [discriminate|]. split; vm_compute; reflexivity.
Qed.

(** C2 (amended): the fingerprint is a function of the string
    [T + "|" + "|".join(V)] alone: two pairs that give the same string (in
    particular the same pair, twice) give the same fingerprint, and a
    fingerprint is 16 characters long. *)
Theorem fingerprint_repeatable (T T' : str) (V V' : list str) :
  T ++ U "|" ++ join (U "|") V = T' ++ U "|" ++ join (U "|") V' ->
  cache_key T V = cache_key T' V'
  /\ (forall k, cache_key T V = Ok k -> length k = 16%nat).
Proof.
  intros H. unfold cache_key. rewrite H. split; [reflexivity|].
  intros k. apply hash_text_length.
Qed.

Lemma fingerprint_repeatable_witness :
  cache_key (U "a|b") [U "c"] = cache_key (U "a") [U "b"; U "c"]
  /\ (forall k, cache_key (U "a|b") [U "c"] = Ok k -> length k = 16%nat).
Proof.
  apply (fingerprint_repeatable (U "a|b") (U "a") [U "c"] [U "b"; U "c"]).
  reflexivity.
Defined.

(** ** Label merger *)

(** C3: the secondary label does not take priority over the raw label. With
    the raw label in the ecology set and the secondary label in the power
    set, the function returns the ecology category, although its docstring
    gives the RU (secondary) label the first priority. *)
Theorem merge_raw_label_overrides_secondary :
  Merger.member (Merger._normalize_label (Some (U "электроэнергия")))
                Merger.power_synonyms = true
  /\ Merger.member (Merger._normalize_label (Some (U "экология")))
                   Merger.ecology_synonyms = true
  /\ Merger._merge_key_for_row (U "экология") (Some (U "электроэнергия"))
     = Merger.ecology_category
  /\ Merger.ecology_category <> Merger.power_category.
Proof.
  repeat split; try (vm_compute; reflexivity). vm_compute. discriminate.
Qed.

(** ** The loop of the driver *)

Lemma occurrences_cons lang a langs :
  occurrences lang (a :: langs)
  = ((if decide (a = lang) then 1 else 0) + occurrences lang langs)%nat.
Proof.
  unfold occurrences. rewrite filter_cons. destruct (decide (a = lang)); reflexivity.
Qed.

Lemma push_columns_cons x a langs d :
  push_columns x (a :: langs) d
  = push_columns x langs (alter (fun l => l ++ [x a]) a d).
Proof. reflexivity. Qed.

Lemma lookup_push_columns x langs : forall d lang,
  push_columns x langs d !! lang
  = (fun l => l ++ repeat (x lang) (occurrences lang langs)) <$> (d !! lang).
Proof.
  induction langs as [|a langs IH]; intros d lang.
  - cbn. destruct (d !! lang) as [l|]; cbn; [|reflexivity].
    now rewrite app_nil_r.
  - rewrite push_columns_cons, IH, lookup_alter, occurrences_cons.
    destruct (decide (a = lang)) as [->|Hne]; [|reflexivity].
    destruct (d !! lang) as [l|]; cbn; [|reflexivity].
    now rewrite <- app_assoc.
Qed.

Lemma push_columns_is_Some x langs d lang :
  is_Some (push_columns x langs d !! lang) <-> is_Some (d !! lang).
Proof.
  rewrite lookup_push_columns. apply fmap_is_Some.
Qed.

Lemma has_langs_push_row translations langs ru st :
  has_langs langs st -> has_langs langs (push_row translations langs ru st).
Proof.
  intros H lang Hin. destruct (H lang Hin) as [H1 H2].
  split; cbn; apply push_columns_is_Some; assumption.
Qed.

Lemma for_each_ext {A S} (f g : A -> S -> M S) (xs : list A) :
  (forall x st w, f x st w = g x st w) ->
  forall st w, for_each xs f st w = for_each xs g st w.
Proof.
  intros Hfg. induction xs as [|x xs IH]; intros st w; [reflexivity|].
  cbn [for_each]. unfold bind. rewrite Hfg.
  destruct (g x st w) as [[st' w']|e]; [apply IH|reflexivity].
Qed.

(** The per-language loop of lines 106-108 and 135-139. *)
Lemma for_each_append_pair (xc xf : str -> str) (langs : list str) : forall st w,
  has_langs langs st ->
  for_each langs (fun lang => append_pair lang (xc lang) (xf lang)) st w
  = Ok (mkLoop (usage_total st) (candidates_ru st) (first_ru st)
               (push_columns xc langs (per_lang_candidates st))
               (push_columns xf langs (per_lang_first st))
               (cache st), w).
Proof.
  induction langs as [|a langs IH]; intros st w Hst.
  - destruct st; reflexivity.
  - destruct (Hst a) as [[l1 H1] [l2 H2]]; [left|].
    cbn [for_each]. unfold bind at 1.
    unfold append_pair, bind, lift, append_at, ret. rewrite H1, H2.
    rewrite IH.
    + rewrite !push_columns_cons.
      rewrite (alter_alt_Some _ _ _ _ H1), (alter_alt_Some _ _ _ _ H2).
      reflexivity.
    + intros lang Hin. destruct (Hst lang) as [Hc Hf]; [now right|].
      cbn. rewrite !lookup_insert.
      split; destruct (decide (a = lang)); eauto.
Qed.

(** *** From ids to labels *)

Lemma index_from (V : list str) : forall (k : nat) (m0 : gmap Z str) (z : Z),
  fold_left (fun m p => <[ (Z.of_nat (fst p) + 1)%Z := snd p ]> m)
            (imap (fun i ru => ((k + i)%nat, ru)) V) m0 !! z
  = match V !! (Z.to_nat (z - 1) - k)%nat with
    | Some ru => if decide (Z.of_nat k + 1 <= z)%Z then Some ru else m0 !! z
    | None => m0 !! z
    end.
Proof.
  induction V as [|a V IH]; intros k m0 z; [reflexivity|].
  cbn [imap fold_left fst snd].
  rewrite (imap_ext _ (fun i ru => ((S k + i)%nat, ru))).
  2:{ intros i x _. cbn. f_equal. lia. }
  rewrite IH, lookup_insert.
  destruct (decide (Z.of_nat k + 1 <= z)%Z) as [Hk|Hk].
  - destruct (decide (Z.of_nat (k + 0) + 1 = z)%Z) as [Heq|Hne].
    + replace (Z.to_nat (z - 1) - k)%nat with 0%nat by lia. cbn.
      destruct (V !! (Z.to_nat (z - 1) - S k)%nat); [|reflexivity].
      destruct (decide (Z.of_nat (S k) + 1 <= z)%Z); [lia|reflexivity].
    + replace (Z.to_nat (z - 1) - k)%nat with (S (Z.to_nat (z - 1) - S k)) by lia. cbn.
      destruct (V !! (Z.to_nat (z - 1) - S k)%nat); [|reflexivity].
      destruct (decide (Z.of_nat (S k) + 1 <= z)%Z); [reflexivity|lia].
  - destruct (decide (Z.of_nat (k + 0) + 1 = z)%Z) as [Heq|Hne]; [lia|].
    destruct (V !! (Z.to_nat (z - 1) - S k)%nat);
      destruct ((a :: V) !! (Z.to_nat (z - 1) - k)%nat); try reflexivity;
      destruct (decide (Z.of_nat (S k) + 1 <= z)%Z); try reflexivity; lia.
Qed.

(** The dict of line 98 maps [i] to the label at position [i - 1]. *)
Lemma problems_index_lookup (V : list str) (z : Z) :
  problems_index V !! z = if valid_id V z then Some (label_of V z) else None.
Proof.
  unfold problems_index.
  rewrite (imap_ext _ (fun i ru => ((0 + i)%nat, ru))) by reflexivity.
  rewrite index_from, lookup_empty. unfold valid_id, label_of.
  rewrite Nat.sub_0_r.
  destruct (Z.leb_spec 1 z) as [H1|H1]; cbn [andb].
  - destruct (Z.leb_spec z (Z.of_nat (length V))) as [H2|H2].
    + destruct (lookup_lt_is_Some_2 V (Z.to_nat (z - 1))) as [ru Hru]; [lia|].
      rewrite Hru. rewrite (nth_lookup_Some _ _ _ _ Hru).
      destruct (decide (Z.of_nat 0 + 1 <= z)%Z); [reflexivity|lia].
    + rewrite lookup_ge_None_2 by lia. reflexivity.
  - destruct (V !! Z.to_nat (z - 1)); [|reflexivity].
    destruct (decide (Z.of_nat 0 + 1 <= z)%Z); [lia|reflexivity].
Qed.

Lemma numeric_ids_ints (zs : list Z) : numeric_ids (map JInt zs) = Ok zs.
Proof.
  induction zs as [|z zs IH]; [reflexivity|]. cbn. rewrite IH. reflexivity.
Qed.

Lemma resolve_ids_ints (V : list str) (zs : list Z) :
  resolve_ids (problems_index V) (map JInt zs)
  = Ok (map (label_of V) (filter (fun z => valid_id V z) zs)).
Proof.
  induction zs as [|z zs IH]; [reflexivity|].
  cbn [map resolve_ids Py.int_key rbind mbind option_bind].
  rewrite problems_index_lookup, IH.
  destruct (valid_id V z) eqn:Hv.
  - rewrite filter_cons_True by (rewrite Hv; exact I). reflexivity.
  - rewrite filter_cons_False by (rewrite Hv; exact id). reflexivity.
Qed.

Lemma labels_of_int_ids (V : list str) (zs : list Z) :
  labels_of_ids V (JArr (map JInt zs))
  = Ok (filter (fun s => nonempty s)
               (map (label_of V) (filter (fun z => valid_id V z) zs))).
Proof.
  unfold labels_of_ids. cbn [Py.iter rbind]. rewrite resolve_ids_ints. reflexivity.
Qed.

Lemma rmap_total {A B} (f : A -> B) (l : list A) :
  rmap (fun a => Ok (f a)) l = Ok (map f l).
Proof.
  induction l as [|a l IH]; [reflexivity|]. cbn. rewrite IH. reflexivity.
Qed.

Section LoopFacts.

Context (json_loads : str -> option json) (json_dumps : json -> str)
        (oracle : nat -> str -> list message -> Z -> option (str * usage)).
Context (model : str) (df : frame) (text_col : str) (problems_ru : list str)
        (translations : option (gmap str (gmap str str))) (langs : list str)
        (params : ClassificationParams).

Lemma append_lang_labels_eq ru lang st w :
  translations <> None \/ ru = [] ->
  append_lang_labels translations ru lang st w
  = append_pair lang (join (U "|") (lang_labels translations ru lang))
                     (first_or_empty (lang_labels translations ru lang)) st w.
Proof.
  intros H. unfold append_lang_labels, bind, lift, lang_labels.
  destruct translations as [tr|].
  - rewrite rmap_total. reflexivity.
  - destruct H as [H| ->]; [congruence|]. reflexivity.
Qed.

Lemma assign_labels_ok ids ru st w :
  labels_of_ids problems_ru ids = Ok ru ->
  has_langs langs st ->
  translatable translations langs ru ->
  assign_labels problems_ru translations langs ids st w
  = Ok (push_row translations langs ru st, w).
Proof.
  unfold labels_of_ids, assign_labels, bind, lift.
  destruct (Py.iter ids) as [items|e]; [|discriminate]. cbn [rbind].
  destruct (resolve_ids (problems_index problems_ru) items) as [l|e]; [|discriminate].
  cbn [rbind]. intros [= <-] Hst [Htr|[Hru|Hl]].
  - erewrite for_each_ext by (intros; apply append_lang_labels_eq; now left).
    rewrite for_each_append_pair by exact Hst. reflexivity.
  - erewrite for_each_ext by (intros; apply append_lang_labels_eq; now right).
    rewrite for_each_append_pair by exact Hst. reflexivity.
  - rewrite Hl. reflexivity.
Qed.

Lemma assign_labels_inv ids st w st' w' :
  assign_labels problems_ru translations langs ids st w = Ok (st', w') ->
  has_langs langs st ->
  exists ru, labels_of_ids problems_ru ids = Ok ru /\ translatable translations langs ru
             /\ st' = push_row translations langs ru st /\ w' = w.
Proof.
  intros Hrun Hst.
  destruct (labels_of_ids problems_ru ids) as [ru|e] eqn:Hl.
  - assert (Htr : translatable translations langs ru).
    { unfold translatable.
      destruct translations as [tr|] eqn:Et; [now left|right].
      destruct ru as [|r ru]; [now left|right].
      destruct langs as [|a langs'] eqn:El; [reflexivity|exfalso].
      revert Hrun Hl. unfold labels_of_ids, assign_labels, bind, lift.
      destruct (Py.iter ids) as [items|]; [|discriminate]. cbn [rbind].
      destruct (resolve_ids (problems_index problems_ru) items); [|discriminate].
      cbn [rbind]. intros Hrun [= Hl]. rewrite Hl in Hrun.
      cbn in Hrun. discriminate. }
    rewrite (assign_labels_ok _ _ _ _ Hl Hst Htr) in Hrun.
    injection Hrun as <- <-. eauto.
  - exfalso. revert Hrun Hl. unfold labels_of_ids, assign_labels, bind, lift.
    destruct (Py.iter ids) as [items|]; [|discriminate]. cbn [rbind].
    destruct (resolve_ids (problems_index problems_ru) items); discriminate.
Qed.

(** *** The three ways through the loop body *)

Local Abbreviation row := (classify_row json_loads oracle model df text_col problems_ru
                                    translations langs params).
Local Abbreviation miss := (classify_miss json_loads oracle model problems_ru
                                      translations langs params).
Local Abbreviation assign := (assign_labels problems_ru translations langs).
Local Abbreviation prompt t := (build_classify_prompt t problems_ru translations langs
                                                  (max_labels_per_text params)).

Lemma classify_row_blank i st w :
  row_text df text_col i = Ok [] ->
  has_langs langs st ->
  row i st w = Ok (push_row translations langs [] st, w).
Proof.
  unfold row_text, classify_row, bind, lift.
  destruct (row_get df text_col i) as [c|e]; [|discriminate].
  cbn [rbind]. intros [= ->] Hst. cbn [nonempty negb].
  rewrite for_each_append_pair by exact Hst. reflexivity.
Qed.

Lemma classify_row_hit i st w t key ids :
  row_text df text_col i = Ok t -> t <> [] ->
  cache_key t problems_ru = Ok key ->
  Py.contains key (cache st) = Ok true ->
  Py.getitem key (cache st) = Ok ids ->
  row i st w = assign ids st w.
Proof.
  unfold row_text, classify_row, bind, lift.
  destruct (row_get df text_col i) as [c|e]; [|discriminate].
  cbn [rbind]. intros [= <-] Ht -> -> ->.
  destruct (strip (if notna c then str_of_cell c else [])); [congruence|].
  reflexivity.
Qed.

Lemma classify_row_miss i st w t key :
  row_text df text_col i = Ok t -> t <> [] ->
  cache_key t problems_ru = Ok key ->
  Py.contains key (cache st) = Ok false ->
  row i st w = (r <- miss t key st ;; assign (fst r) (snd r)) w.
Proof.
  unfold row_text, classify_row, bind, lift.
  destruct (row_get df text_col i) as [c|e]; [|discriminate].
  cbn [rbind]. intros [= <-] Ht -> ->.
  destruct (strip (if notna c then str_of_cell c else [])); [congruence|].
  reflexivity.
Qed.

Lemma assoc_get_set_eq {V} (k : str) (v : V) kv :
  Py.assoc_get k (Py.assoc_set k v kv) = Some v.
Proof.
  induction kv as [|[k' v'] kv IH]; cbn [Py.assoc_get Py.assoc_set]; unfold str_eqb.
  - rewrite bool_decide_eq_true_2 by reflexivity. reflexivity.
  - destruct (bool_decide (k = k')) eqn:E; cbn [Py.assoc_get]; unfold str_eqb.
    + rewrite bool_decide_eq_true_2 by reflexivity. reflexivity.
    + rewrite E. exact IH.
Qed.

Lemma assoc_get_set_ne {V} (k k' : str) (v : V) kv :
  k <> k' -> Py.assoc_get k' (Py.assoc_set k v kv) = Py.assoc_get k' kv.
Proof.
  intros Hne.
  induction kv as [|[k0 v0] kv IH]; cbn [Py.assoc_get Py.assoc_set]; unfold str_eqb.
  - rewrite bool_decide_eq_false_2 by congruence. reflexivity.
  - destruct (bool_decide (k = k0)) eqn:E; cbn [Py.assoc_get]; unfold str_eqb.
    + apply bool_decide_eq_true_1 in E. subst k0.
      rewrite !bool_decide_eq_false_2 by congruence. reflexivity.
    + destruct (bool_decide (k' = k0)); [reflexivity|exact IH].
Qed.

(** A cache miss whose response decodes to an object. *)
Lemma classify_miss_ok t key st w resp u members zs kv :
  oracle (oracle_calls w) model (prompt t) 800 = Some (resp, u) ->
  _safe_json_loads json_loads resp = Ok (JObj members) ->
  numeric_ids (response_items members) = Ok zs ->
  cache st = JObj kv ->
  let ids := JArr (map JInt (Py.slice_to (max_labels_per_text params) zs)) in
  miss t key st w
  = Ok ((ids, mkLoop (usage_add (usage_total st) u) (candidates_ru st) (first_ru st)
                     (per_lang_candidates st) (per_lang_first st)
                     (JObj (Py.assoc_set key ids kv))),
        count_call w).
Proof.
  intros Ho Hj Hn Hc. unfold classify_miss, chat_complete_ex, bind, lift.
  rewrite Ho. cbn [fst snd]. rewrite Hj. cbn [Py.get].
  unfold response_items in Hn.
  destruct (Py.assoc_get (U "problem_ids") members) as [[]|];
    rewrite Hn, Hc; reflexivity.
Qed.

(** What a successful cache miss leaves behind. *)
Lemma classify_miss_inv t key st w ids st1 w1 :
  miss t key st w = Ok ((ids, st1), w1) ->
  Py.contains key (cache st1) = Ok true
  /\ Py.getitem key (cache st1) = Ok ids
  /\ candidates_ru st1 = candidates_ru st /\ first_ru st1 = first_ru st
  /\ per_lang_candidates st1 = per_lang_candidates st
  /\ per_lang_first st1 = per_lang_first st.
Proof.
  unfold classify_miss, chat_complete_ex, bind, lift.
  destruct (oracle _ _ _ _) as [[resp u]|]; [|discriminate]. cbn [fst snd].
  destruct (_safe_json_loads json_loads resp) as [data|]; [|discriminate].
  destruct (Py.get data _ _) as [ids0|]; [|discriminate].
  destruct (numeric_ids _) as [zs|]; [|discriminate].
  destruct (cache st) as [| | | | | |kv]; try discriminate.
  cbn [Py.setitem]. intros [= <- <- <-]. cbn [cache Py.contains Py.getitem].
  rewrite assoc_get_set_eq. repeat split.
Qed.

Lemma has_langs_initial c : has_langs langs (initial_state langs c).
Proof.
  intros lang Hin.
  assert (H : is_Some ((list_to_map (map (fun l : str => (l, @nil str)) langs)
                        : gmap str (list str)) !! lang)).
  { destruct (_ !! lang) eqn:E; [eauto|exfalso].
    apply not_elem_of_list_to_map in E. apply E.
    apply list_elem_of_fmap. exists (lang, []). split; [reflexivity|].
    apply list_elem_of_fmap. exists lang. split; [reflexivity|exact Hin]. }
  split; exact H.
Qed.

Lemma has_langs_same st st' :
  per_lang_candidates st' = per_lang_candidates st ->
  per_lang_first st' = per_lang_first st ->
  has_langs langs st -> has_langs langs st'.
Proof.
  intros H1 H2 H lang Hin. rewrite H1, H2. exact (H lang Hin).
Qed.

Lemma slice_to_nil {A} (n : Z) : Py.slice_to n (@nil A) = [].
Proof.
  unfold Py.slice_to. destruct (0 <=? n)%Z; apply firstn_nil.
Qed.

(** A row that misses the cache and whose response decodes to an object. *)
Lemma classify_row_miss_ok i st w t key kv resp u members zs :
  row_text df text_col i = Ok t -> t <> [] ->
  cache_key t problems_ru = Ok key ->
  cache st = JObj kv -> Py.assoc_get key kv = None ->
  oracle (oracle_calls w) model (prompt t) 800 = Some (resp, u) ->
  _safe_json_loads json_loads resp = Ok (JObj members) ->
  numeric_ids (response_items members) = Ok zs ->
  has_langs langs st ->
  let stored := Py.slice_to (max_labels_per_text params) zs in
  let ru := filter (fun s => nonempty s)
                   (map (label_of problems_ru)
                        (filter (fun z => valid_id problems_ru z) stored)) in
  translatable translations langs ru ->
  row i st w
  = Ok (push_row translations langs ru
          (mkLoop (usage_add (usage_total st) u) (candidates_ru st) (first_ru st)
                  (per_lang_candidates st) (per_lang_first st)
                  (JObj (Py.assoc_set key (JArr (map JInt stored)) kv))),
        count_call w).
Proof.
  intros Ht Hne Hk Hc Hfree Ho Hj Hn Hst stored ru Htr.
  rewrite (classify_row_miss i st w t key Ht Hne Hk).
  2:{ rewrite Hc. cbn [Py.contains]. rewrite Hfree. reflexivity. }
  unfold bind at 1.
  rewrite (classify_miss_ok t key st w resp u members zs kv Ho Hj Hn Hc).
  cbn [fst snd].
  apply assign_labels_ok; [apply labels_of_int_ids| |exact Htr].
  intros lang Hin. exact (Hst lang Hin).
Qed.

(** What a successful pass through the loop body leaves behind, for a row
    with a text: the labels come from ids that the cache now holds under the
    key of the row. *)
Lemma classify_row_text_inv i st w st1 w1 t :
  row_text df text_col i = Ok t -> t <> [] ->
  has_langs langs st ->
  row i st w = Ok (st1, w1) ->
  exists key ids ru st0,
    cache_key t problems_ru = Ok key
    /\ labels_of_ids problems_ru ids = Ok ru /\ translatable translations langs ru
    /\ st1 = push_row translations langs ru st0
    /\ Py.contains key (cache st0) = Ok true
    /\ Py.getitem key (cache st0) = Ok ids
    /\ candidates_ru st0 = candidates_ru st /\ first_ru st0 = first_ru st
    /\ per_lang_candidates st0 = per_lang_candidates st
    /\ per_lang_first st0 = per_lang_first st.
Proof.
  intros Ht Hne Hst Hrun.
  destruct (cache_key t problems_ru) as [key|e] eqn:Hk.
  2:{ exfalso. revert Ht Hrun. unfold row_text, classify_row, bind, lift.
      destruct (row_get df text_col i); [|discriminate]. cbn [rbind].
      intros [= <-].
      destruct (strip (if notna a then str_of_cell a else [])); [congruence|].
      cbn [nonempty negb]. rewrite Hk. discriminate. }
  destruct (Py.contains key (cache st)) as [[|]|e] eqn:Hin.
  - destruct (Py.getitem key (cache st)) as [ids|e] eqn:Hget.
    + rewrite (classify_row_hit i st w t key ids Ht Hne Hk Hin Hget) in Hrun.
      apply assign_labels_inv in Hrun as (ru & Hl & Htr & -> & ->); [|exact Hst].
      exists key, ids, ru, st. repeat split; assumption.
    + exfalso. revert Ht Hrun. unfold row_text, classify_row, bind, lift.
      destruct (row_get df text_col i); [|discriminate]. cbn [rbind].
      intros [= <-].
      destruct (strip (if notna a then str_of_cell a else [])); [congruence|].
      cbn [nonempty negb]. rewrite Hk, Hin, Hget. discriminate.
  - rewrite (classify_row_miss i st w t key Ht Hne Hk Hin) in Hrun.
    unfold bind at 1 in Hrun.
    destruct (miss t key st w) as [[[ids st0] w0]|e] eqn:Hmiss; [|discriminate].
    cbn [fst snd] in Hrun.
    apply classify_miss_inv in Hmiss as (Hc & Hg & H1 & H2 & H3 & H4).
    apply assign_labels_inv in Hrun as (ru & Hl & Htr & -> & ->).
    2:{ apply (has_langs_same st st0 H3 H4 Hst). }
    exists key, ids, ru, st0. repeat split; assumption.
  - exfalso. revert Ht Hrun. unfold row_text, classify_row, bind, lift.
    destruct (row_get df text_col i); [|discriminate]. cbn [rbind].
    intros [= <-].
    destruct (strip (if notna a then str_of_cell a else [])); [congruence|].
    cbn [nonempty negb]. rewrite Hk, Hin. discriminate.
Qed.

(** The loop keeps its invariant. *)
Lemma classify_row_keeps_langs i st w st1 w1 :
  has_langs langs st ->
  row i st w = Ok (st1, w1) ->
  has_langs langs st1.
Proof.
  intros Hst Hrun.
  destruct (row_text df text_col i) as [[|ch t]|e] eqn:Ht.
  - rewrite (classify_row_blank i st w Ht Hst) in Hrun. injection Hrun as <- _.
    apply has_langs_push_row, Hst.
  - destruct (classify_row_text_inv i st w st1 w1 (ch :: t) Ht ltac:(discriminate) Hst Hrun)
      as (key & ids & ru & st0 & _ & _ & _ & -> & _ & _ & _ & _ & H3 & H4).
    apply has_langs_push_row, (has_langs_same st st0 H3 H4 Hst).
  - exfalso. revert Ht Hrun. unfold row_text, classify_row, bind, lift.
    destruct (row_get df text_col i); discriminate.
Qed.

Lemma for_each_keeps_langs rows : forall st w st1 w1,
  has_langs langs st ->
  for_each rows row st w = Ok (st1, w1) ->
  has_langs langs st1.
Proof.
  induction rows as [|i rows IH]; intros st w st1 w1 Hst Hrun.
  - injection Hrun as <- _. exact Hst.
  - cbn [for_each] in Hrun. unfold bind at 1 in Hrun.
    destruct (row i st w) as [[st' w']|e] eqn:Hrow; [|discriminate].
    exact (IH st' w' st1 w1 (classify_row_keeps_langs i st w st' w' Hst Hrow) Hrun).
Qed.

(** ** Blank rows *)

(** C7: a row whose text is missing, or blank once trimmed, gets empty
    values in the base-language columns and in the columns of every
    requested language; the world is left as it was (no request to the
    oracle), the cache is not consulted (whatever it holds, even a value a
    lookup would raise on) nor changed, and the usage totals stay. *)
Theorem blank_row_short_circuit (i : nat) (st : loop_state) (w : world) (c : cell) :
  row_get df text_col i = Ok c ->
  c = CNa \/ strip (str_of_cell c) = [] ->
  has_langs langs st ->
  exists st',
    row i st w = Ok (st', w)
    /\ candidates_ru st' = candidates_ru st ++ [[]]
    /\ first_ru st' = first_ru st ++ [[]]
    /\ (forall lang l, per_lang_candidates st !! lang = Some l ->
          per_lang_candidates st' !! lang = Some (l ++ repeat [] (occurrences lang langs)))
    /\ (forall lang l, per_lang_first st !! lang = Some l ->
          per_lang_first st' !! lang = Some (l ++ repeat [] (occurrences lang langs)))
    /\ cache st' = cache st
    /\ usage_total st' = usage_total st.
Proof.
  intros Hc Hblank Hst.
  assert (Ht : row_text df text_col i = Ok []).
  { unfold row_text. rewrite Hc. cbn [rbind].
    destruct Hblank as [-> | Hb]; [reflexivity|].
    destruct c; [reflexivity| |]; cbn in *; now rewrite Hb. }
  exists (push_row translations langs [] st).
  split; [exact (classify_row_blank i st w Ht Hst)|].
  repeat split.
  - intros lang l Hl. cbn. rewrite lookup_push_columns, Hl. reflexivity.
  - intros lang l Hl. cbn. rewrite lookup_push_columns, Hl. reflexivity.
Qed.

(** ** Malformed responses *)

(** C1 (amended): on a cache miss, a response that decodes to an object
    without the list field gives the row no label (empty values in all its
    columns), is recorded in the cache as the empty list, and the loop goes
    on with the next row; a response that does not decode raises
    JSONDecodeError out of the loop. *)
Theorem malformed_response_handling
    (i : nat) (rest : list nat) (st : loop_state) (w : world)
    (t key resp : str) (kv : list (str * json)) (u : usage) :
  row_text df text_col i = Ok t -> t <> [] ->
  cache_key t problems_ru = Ok key ->
  cache st = JObj kv -> Py.assoc_get key kv = None ->
  oracle (oracle_calls w) model (prompt t) 800 = Some (resp, u) ->
  has_langs langs st ->
  (forall members,
     _safe_json_loads json_loads resp = Ok (JObj members) ->
     Py.assoc_get (U "problem_ids") members = None ->
     exists st',
       row i st w = Ok (st', count_call w)
       /\ for_each (i :: rest) row st w = for_each rest row st' (count_call w)
       /\ candidates_ru st' = candidates_ru st ++ [[]]
       /\ first_ru st' = first_ru st ++ [[]]
       /\ (forall lang l, per_lang_candidates st !! lang = Some l ->
             per_lang_candidates st' !! lang
             = Some (l ++ repeat [] (occurrences lang langs)))
       /\ (forall lang l, per_lang_first st !! lang = Some l ->
             per_lang_first st' !! lang = Some (l ++ repeat [] (occurrences lang langs)))
       /\ cache st' = JObj (Py.assoc_set key (JArr []) kv)
       /\ usage_total st' = usage_add (usage_total st) u)
  /\ (_safe_json_loads json_loads resp = Raise JSONDecodeError ->
      row i st w = Raise JSONDecodeError
      /\ for_each (i :: rest) row st w = Raise JSONDecodeError).
Proof.
  intros Ht Hne Hk Hc Hfree Ho Hst. split.
  - intros members Hj Hfield.
    assert (Hn : numeric_ids (response_items members) = Ok []).
    { unfold response_items. rewrite Hfield. reflexivity. }
    pose proof (classify_row_miss_ok i st w t key kv resp u members []
                  Ht Hne Hk Hc Hfree Ho Hj Hn Hst) as Hrow.
    rewrite slice_to_nil in Hrow. cbn zeta in Hrow.
    specialize (Hrow (or_intror (or_introl eq_refl))).
    eexists. split; [exact Hrow|].
    split; [cbn [for_each]; unfold bind at 1; rewrite Hrow; reflexivity|].
    repeat split.
    + intros lang l Hl. cbn. rewrite lookup_push_columns, Hl. reflexivity.
    + intros lang l Hl. cbn. rewrite lookup_push_columns, Hl. reflexivity.
  - intros Hj.
    assert (Hrow : row i st w = Raise JSONDecodeError).
    { rewrite (classify_row_miss i st w t key Ht Hne Hk).
      2:{ rewrite Hc. cbn [Py.contains]. rewrite Hfree. reflexivity. }
      unfold bind at 1. unfold classify_miss, chat_complete_ex, bind, lift.
      rewrite Ho. cbn [fst]. rewrite Hj. reflexivity. }
    split; [exact Hrow|].
    cbn [for_each]. unfold bind at 1. rewrite Hrow. reflexivity.
Qed.

(** ** Clamping and range *)

(** C5: on a cache miss, when the response lists more integer ids than
    [max_labels_per_text], the ids stored in the cache are the first
    [max_labels_per_text] of them, in the order of the response, and the
    labels of the row are the labels of these ids. *)
Theorem long_response_clamped
    (i : nat) (st : loop_state) (w : world)
    (t key resp : str) (kv members : list (str * json)) (u : usage) (zs : list Z) :
  row_text df text_col i = Ok t -> t <> [] ->
  cache_key t problems_ru = Ok key ->
  cache st = JObj kv -> Py.assoc_get key kv = None ->
  oracle (oracle_calls w) model (prompt t) 800 = Some (resp, u) ->
  _safe_json_loads json_loads resp = Ok (JObj members) ->
  Py.assoc_get (U "problem_ids") members = Some (JArr (map JInt zs)) ->
  (0 <= max_labels_per_text params < Z.of_nat (length zs))%Z ->
  has_langs langs st ->
  translations <> None \/ langs = [] ->
  let stored := firstn (Z.to_nat (max_labels_per_text params)) zs in
  let ru := filter (fun s => nonempty s)
                   (map (label_of problems_ru)
                        (filter (fun z => valid_id problems_ru z) stored)) in
  exists st',
    row i st w = Ok (st', count_call w)
    /\ Z.of_nat (length stored) = max_labels_per_text params
    /\ Py.getitem key (cache st') = Ok (JArr (map JInt stored))
    /\ candidates_ru st' = candidates_ru st ++ [join (U "|") ru]
    /\ first_ru st' = first_ru st ++ [first_or_empty ru].
Proof.
  intros Ht Hne Hk Hc Hfree Ho Hj Hfield Hmax Hst Htr stored ru.
  assert (Hn : numeric_ids (response_items members) = Ok zs).
  { unfold response_items. rewrite Hfield. apply numeric_ids_ints. }
  pose proof (classify_row_miss_ok i st w t key kv resp u members zs
                Ht Hne Hk Hc Hfree Ho Hj Hn Hst) as Hrow.
  cbn zeta in Hrow. unfold Py.slice_to in Hrow.
  destruct (Z.leb_spec 0 (max_labels_per_text params)) as [_|Hneg]; [|lia].
  fold stored in Hrow. fold ru in Hrow.
  eexists. split; [apply Hrow|].
  { destruct Htr as [Htr|Htr]; [now left|now right; right]. }
  split; [subst stored; rewrite length_firstn; lia|].
  split; [|split; reflexivity].
  cbn [cache push_row Py.getitem]. rewrite assoc_get_set_eq. reflexivity.
Qed.

(** C6 (amended): on a cache miss, the candidates of the row are the labels
    of the ids that are in the range of the vocabulary among the numeric
    entries kept by the clamp (the first [max_labels_per_text] of them), in
    the order of the response; an id outside the range contributes nothing.
    (An id whose vocabulary entry is the empty string gives no candidate.) *)
Theorem out_of_range_ids_dropped
    (i : nat) (st : loop_state) (w : world)
    (t key resp : str) (kv members : list (str * json)) (u : usage) (zs : list Z) :
  row_text df text_col i = Ok t -> t <> [] ->
  cache_key t problems_ru = Ok key ->
  cache st = JObj kv -> Py.assoc_get key kv = None ->
  oracle (oracle_calls w) model (prompt t) 800 = Some (resp, u) ->
  _safe_json_loads json_loads resp = Ok (JObj members) ->
  numeric_ids (response_items members) = Ok zs ->
  has_langs langs st ->
  translations <> None \/ langs = [] ->
  let kept := filter (fun z => valid_id problems_ru z)
                     (Py.slice_to (max_labels_per_text params) zs) in
  let ru := filter (fun s => nonempty s) (map (label_of problems_ru) kept) in
  exists st',
    row i st w = Ok (st', count_call w)
    /\ candidates_ru st' = candidates_ru st ++ [join (U "|") ru]
    /\ first_ru st' = first_ru st ++ [first_or_empty ru]
    /\ (forall z, z ∈ kept ->
          (1 <= z <= Z.of_nat (length problems_ru))%Z
          /\ z ∈ Py.slice_to (max_labels_per_text params) zs)
    /\ (forall z, z ∈ Py.slice_to (max_labels_per_text params) zs ->
          (1 <= z <= Z.of_nat (length problems_ru))%Z -> z ∈ kept).
Proof.
  intros Ht Hne Hk Hc Hfree Ho Hj Hn Hst Htr kept ru.
  pose proof (classify_row_miss_ok i st w t key kv resp u members zs
                Ht Hne Hk Hc Hfree Ho Hj Hn Hst) as Hrow.
  cbn zeta in Hrow. fold kept in Hrow. fold ru in Hrow.
  eexists. split; [apply Hrow|].
  { destruct Htr as [Htr|Htr]; [now left|now right; right]. }
  split; [reflexivity|]. split; [reflexivity|].
  split.
  - intros z Hz. apply list_elem_of_filter in Hz as [Hv Hin].
    split; [|exact Hin]. unfold valid_id in Hv.
    apply Is_true_true, andb_true_iff in Hv as [H1 H2]. lia.
  - intros z Hin Hr. apply list_elem_of_filter. split; [|exact Hin].
    unfold valid_id. apply Is_true_true, andb_true_iff. lia.
Qed.

(** ** Cache hits *)

(** C4: once a row with a text has been classified, classifying the same
    text against the same vocabulary with the cache this left gives the same
    labels in every column, sends nothing to the oracle (the world is
    unchanged), and leaves the usage totals and the cache as they were. *)
Theorem cache_idempotence (i : nat) (st st1 : loop_state) (w w1 : world) (t : str) :
  row_text df text_col i = Ok t -> t <> [] ->
  has_langs langs st ->
  row i st w = Ok (st1, w1) ->
  exists ru : list str,
    let cands := fun lang => join (U "|") (lang_labels translations ru lang) in
    let firsts := fun lang => first_or_empty (lang_labels translations ru lang) in
    (candidates_ru st1 = candidates_ru st ++ [join (U "|") ru]
     /\ first_ru st1 = first_ru st ++ [first_or_empty ru]
     /\ per_lang_candidates st1 = push_columns cands langs (per_lang_candidates st)
     /\ per_lang_first st1 = push_columns firsts langs (per_lang_first st))
    /\ forall (st2 : loop_state) (w2 : world),
         cache st2 = cache st1 -> has_langs langs st2 ->
         exists st3,
           row i st2 w2 = Ok (st3, w2)
           /\ usage_total st3 = usage_total st2
           /\ cache st3 = cache st2
           /\ candidates_ru st3 = candidates_ru st2 ++ [join (U "|") ru]
           /\ first_ru st3 = first_ru st2 ++ [first_or_empty ru]
           /\ per_lang_candidates st3 = push_columns cands langs (per_lang_candidates st2)
           /\ per_lang_first st3 = push_columns firsts langs (per_lang_first st2).
Proof.
  intros Ht Hne Hst Hrun.
  pose proof (classify_row_text_inv i st w st1 w1 t Ht Hne Hst Hrun) as Hwarm.
  destruct Hwarm as (key & ids & ru & st0 & Hk & Hl & Htr & -> & Hc & Hg & H1 & H2 & H3 & H4).
  exists ru. cbn zeta. split.
  - cbn [push_row candidates_ru first_ru per_lang_candidates per_lang_first].
    rewrite H1, H2, H3, H4. repeat split.
  - intros st2 w2 Hcache Hst2. cbn [push_row cache] in Hcache.
    exists (push_row translations langs ru st2). split.
    + rewrite (classify_row_hit i st2 w2 t key ids Ht Hne Hk).
      * apply assign_labels_ok; assumption.
      * rewrite Hcache. exact Hc.
      * rewrite Hcache. exact Hg.
    + repeat split.
Qed.

End LoopFacts.

(** *** The theorems above on concrete rows *)

Lemma blank_row_short_circuit_witness :
  exists st',
    classify_row Lite.loads (Examples.answering (U "unused")) (U "gpt")
                 Examples.blank_rows (U "text") Examples.vocabulary
                 (Some Examples.translations) [U "en"] default_params
                 0 Examples.start Examples.fresh_world
    = Ok (st', Examples.fresh_world)
    /\ candidates_ru st' = candidates_ru Examples.start ++ [[]]
    /\ first_ru st' = first_ru Examples.start ++ [[]]
    /\ (forall lang l, per_lang_candidates Examples.start !! lang = Some l ->
          per_lang_candidates st' !! lang
          = Some (l ++ repeat [] (occurrences lang [U "en"])))
    /\ (forall lang l, per_lang_first Examples.start !! lang = Some l ->
          per_lang_first st' !! lang = Some (l ++ repeat [] (occurrences lang [U "en"])))
    /\ cache st' = cache Examples.start
    /\ usage_total st' = usage_total Examples.start.
Proof.
  apply (blank_row_short_circuit Lite.loads (Examples.answering (U "unused")) (U "gpt")
           Examples.blank_rows (U "text") Examples.vocabulary
           (Some Examples.translations) [U "en"] default_params
           0 Examples.start Examples.fresh_world (CStr (U "   "))).
  - reflexivity.
  - right. vm_compute. reflexivity.
  - apply has_langs_initial.
Defined.

(** C1, as stated, fails: with a response that is not JSON the call raises,
    and no row of the batch is returned. *)
Lemma unparseable_response_aborts :
  Lite.loads (U "I cannot answer that") = None
  /\ returned (classify_dataframe Lite.loads Lite.dumps
                 (Examples.answering (U "I cannot answer that")) (U "gpt")
                 Examples.two_rows (U "text") Examples.vocabulary
                 (Some Examples.translations) [U "en"] None Examples.fresh_world)
     = Raise JSONDecodeError.
Proof.
  split; vm_compute; reflexivity.
Qed.

Lemma malformed_response_handling_witness :
  (exists st',
     classify_row Lite.loads (Examples.answering (Examples.qq "{'labels': [1]}")) (U "gpt")
                  Examples.one_row (U "text") Examples.vocabulary
                  (Some Examples.translations) [U "en"] default_params
                  0 Examples.start Examples.fresh_world
     = Ok (st', count_call Examples.fresh_world)
     /\ candidates_ru st' = [[]] /\ first_ru st' = [[]]
     /\ cache st' = JObj [(Examples.one_row_key, JArr [])])
  /\ classify_row Lite.loads (Examples.answering (U "I cannot answer that")) (U "gpt")
                  Examples.one_row (U "text") Examples.vocabulary
                  (Some Examples.translations) [U "en"] default_params
                  0 Examples.start Examples.fresh_world
     = Raise JSONDecodeError.
Proof.
  split.
  - destruct (malformed_response_handling Lite.loads
                (Examples.answering (Examples.qq "{'labels': [1]}")) (U "gpt")
                Examples.one_row (U "text") Examples.vocabulary
                (Some Examples.translations) [U "en"] default_params
                0 [] Examples.start Examples.fresh_world
                (U "no electricity for 3 days") Examples.one_row_key
                (Examples.qq "{'labels': [1]}") [] (mkUsage 10 2 12))
      as [Hobj _].
    + vm_compute; reflexivity.
    + vm_compute; discriminate.
    + vm_compute; reflexivity.
    + reflexivity.
    + reflexivity.
    + reflexivity.
    + apply has_langs_initial.
    + destruct (Hobj [(U "labels", JArr [JInt 1])]) as (st' & Hrow & _ & Hc & Hf & _ & _ & Hcache & _).
      * vm_compute; reflexivity.
      * vm_compute; reflexivity.
      * exists st'. repeat split; assumption.
  - destruct (malformed_response_handling Lite.loads
                (Examples.answering (U "I cannot answer that")) (U "gpt")
                Examples.one_row (U "text") Examples.vocabulary
                (Some Examples.translations) [U "en"] default_params
                0 [] Examples.start Examples.fresh_world
                (U "no electricity for 3 days") Examples.one_row_key
                (U "I cannot answer that") [] (mkUsage 10 2 12))
      as [_ Hraise].
    + vm_compute; reflexivity.
    + vm_compute; discriminate.
    + vm_compute; reflexivity.
    + reflexivity.
    + reflexivity.
    + reflexivity.
    + apply has_langs_initial.
    + apply Hraise. vm_compute; reflexivity.
Defined.

Lemma long_response_clamped_witness :
  exists st',
    classify_row Lite.loads
                 (Examples.answering (Examples.qq "{'problem_ids': [2, 1, 2, 1, 2]}")) (U "gpt")
                 Examples.one_row (U "text") Examples.vocabulary
                 (Some Examples.translations) [U "en"] default_params
                 0 Examples.start Examples.fresh_world
    = Ok (st', count_call Examples.fresh_world)
    /\ Py.getitem Examples.one_row_key (cache st') = Ok (JArr [JInt 2; JInt 1; JInt 2])
    /\ candidates_ru st' = [U "housing cost|power outages|housing cost"]
    /\ first_ru st' = [U "housing cost"].
Proof.
  destruct (long_response_clamped Lite.loads
              (Examples.answering (Examples.qq "{'problem_ids': [2, 1, 2, 1, 2]}")) (U "gpt")
              Examples.one_row (U "text") Examples.vocabulary
              (Some Examples.translations) [U "en"] default_params
              0 Examples.start Examples.fresh_world
              (U "no electricity for 3 days") Examples.one_row_key
              (Examples.qq "{'problem_ids': [2, 1, 2, 1, 2]}") []
              [(U "problem_ids", JArr [JInt 2; JInt 1; JInt 2; JInt 1; JInt 2])]
              (mkUsage 10 2 12) [2; 1; 2; 1; 2]%Z)
    as (st' & Hrow & _ & Hget & Hc & Hf).
  - vm_compute; reflexivity.
  - vm_compute; discriminate.
  - vm_compute; reflexivity.
  - reflexivity.
  - reflexivity.
  - reflexivity.
  - vm_compute; reflexivity.
  - vm_compute; reflexivity.
  - cbn. lia.
  - apply has_langs_initial.
  - left. discriminate.
  - exists st'. split; [exact Hrow|]. split; [exact Hget|].
    split; [rewrite Hc|rewrite Hf]; vm_compute; reflexivity.
Defined.

(** C6, as stated, fails: the response lists the ids 0, 3, 0, 1 for a
    vocabulary of two labels; the id 1 is in range, but the clamp to three
    ids comes before the range filter and the row gets no candidate. *)
Lemma valid_id_lost_to_the_clamp :
  valid_id Examples.vocabulary 1 = true
  /\ exists out u,
       returned (classify_dataframe Lite.loads Lite.dumps
                   (Examples.answering (Examples.qq "{'problem_ids': [0, 3, 0, 1]}")) (U "gpt")
                   Examples.one_row (U "text") Examples.vocabulary
                   (Some Examples.translations) [U "en"] None Examples.fresh_world)
       = Ok (out, u)
       /\ row_get out (U "problem_russ_candidates") 0 = Ok (CStr []).
Proof.
  split; [reflexivity|]. eexists _, _. split; vm_compute; reflexivity.
Qed.

Lemma out_of_range_ids_dropped_witness :
  exists st',
    classify_row Lite.loads
                 (Examples.answering (Examples.qq "{'problem_ids': [0, 2, 3, 1]}")) (U "gpt")
                 Examples.one_row (U "text") Examples.vocabulary
                 (Some Examples.translations) [U "en"] default_params
                 0 Examples.start Examples.fresh_world
    = Ok (st', count_call Examples.fresh_world)
    /\ candidates_ru st' = [U "housing cost"]
    /\ first_ru st' = [U "housing cost"].
Proof.
  destruct (out_of_range_ids_dropped Lite.loads
              (Examples.answering (Examples.qq "{'problem_ids': [0, 2, 3, 1]}")) (U "gpt")
              Examples.one_row (U "text") Examples.vocabulary
              (Some Examples.translations) [U "en"] default_params
              0 Examples.start Examples.fresh_world
              (U "no electricity for 3 days") Examples.one_row_key
              (Examples.qq "{'problem_ids': [0, 2, 3, 1]}") []
              [(U "problem_ids", JArr [JInt 0; JInt 2; JInt 3; JInt 1])]
              (mkUsage 10 2 12) [0; 2; 3; 1]%Z)
    as (st' & Hrow & Hc & Hf & _).
  - vm_compute; reflexivity.
  - vm_compute; discriminate.
  - vm_compute; reflexivity.
  - reflexivity.
  - reflexivity.
  - reflexivity.
  - vm_compute; reflexivity.
  - vm_compute; reflexivity.
  - apply has_langs_initial.
  - left. discriminate.
  - exists st'. split; [exact Hrow|].
    split; [rewrite Hc|rewrite Hf]; vm_compute; reflexivity.
Defined.

Lemma cache_idempotence_witness :
  exists (st1 : loop_state) (ru : list str),
    classify_row Lite.loads (Examples.answering (Examples.qq "{'problem_ids': [1]}")) (U "gpt")
                 Examples.one_row (U "text") Examples.vocabulary
                 (Some Examples.translations) [U "en"] default_params
                 0 Examples.start Examples.fresh_world
    = Ok (st1, count_call Examples.fresh_world)
    /\ candidates_ru st1 = [join (U "|") ru]
    /\ forall (st2 : loop_state) (w2 : world),
         cache st2 = cache st1 -> has_langs [U "en"] st2 ->
         exists st3,
           classify_row Lite.loads (Examples.answering (Examples.qq "{'problem_ids': [1]}"))
                        (U "gpt") Examples.one_row (U "text") Examples.vocabulary
                        (Some Examples.translations) [U "en"] default_params
                        0 st2 w2
           = Ok (st3, w2)
           /\ usage_total st3 = usage_total st2
           /\ cache st3 = cache st2
           /\ candidates_ru st3 = candidates_ru st2 ++ [join (U "|") ru]
           /\ first_ru st3 = first_ru st2 ++ [first_or_empty ru].
Proof.
  assert (Hrun : exists st1,
            classify_row Lite.loads (Examples.answering (Examples.qq "{'problem_ids': [1]}"))
                         (U "gpt") Examples.one_row (U "text") Examples.vocabulary
                         (Some Examples.translations) [U "en"] default_params
                         0 Examples.start Examples.fresh_world
            = Ok (st1, count_call Examples.fresh_world)).
  { eexists. vm_compute. reflexivity. }
  destruct Hrun as [st1 Hrun].
  destruct (cache_idempotence Lite.loads
              (Examples.answering (Examples.qq "{'problem_ids': [1]}")) (U "gpt")
              Examples.one_row (U "text") Examples.vocabulary
              (Some Examples.translations) [U "en"] default_params
              0 Examples.start st1 Examples.fresh_world (count_call Examples.fresh_world)
              (U "no electricity for 3 days"))
    as (ru & (Hc & _) & Hwarm).
  - vm_compute; reflexivity.
  - vm_compute; discriminate.
  - apply has_langs_initial.
  - exact Hrun.
  - exists st1, ru. split; [exact Hrun|]. split; [exact Hc|].
    intros st2 w2 Hcache Hst2.
    destruct (Hwarm st2 w2 Hcache Hst2) as (st3 & H1 & H2 & H3 & H4 & H5 & _).
    exists st3. repeat split; assumption.
Defined.

(** ** The cache file *)

Lemma blind_ret {A} (a : A) : files_blind (ret a).
Proof. intros w cf wf. reflexivity. Qed.

Lemma blind_lift {A} (r : result A) : files_blind (lift r).
Proof. intros w cf wf. unfold lift. destruct r; reflexivity. Qed.

Lemma blind_bind {A B} (c : M A) (k : A -> M B) :
  files_blind c -> (forall a, files_blind (k a)) -> files_blind (bind c k).
Proof.
  intros Hc Hk w cf wf. unfold bind. rewrite Hc.
  destruct (c w) as [[a w']|e]; [apply Hk|reflexivity].
Qed.

Lemma blind_for_each {A S} (xs : list A) (body : A -> S -> M S) :
  (forall x st, files_blind (body x st)) -> forall st, files_blind (for_each xs body st).
Proof.
  intros Hb. induction xs as [|x xs IH]; intros st; cbn [for_each].
  - apply blind_ret.
  - apply blind_bind; [apply Hb|exact IH].
Qed.

Lemma blind_chat oracle model msgs n : files_blind (chat_complete_ex oracle model msgs n).
Proof.
  intros w cf wf. unfold chat_complete_ex. cbn [with_files oracle_calls].
  destruct (oracle _ _ _ _); reflexivity.
Qed.

Ltac blind :=
  repeat first
    [ apply blind_ret | apply blind_lift | apply blind_chat
    | apply blind_bind; [|intros ?]
    | apply blind_for_each; intros ? ?
    | match goal with |- files_blind (if ?b then _ else _) => destruct b end ].

Section CacheFile.

Context (json_loads : str -> option json) (json_dumps : json -> str)
        (oracle : nat -> str -> list message -> Z -> option (str * usage)).
Context (model : str) (df : frame) (text_col : str) (problems_ru : list str)
        (translations : option (gmap str (gmap str str))) (langs : list str)
        (params : option ClassificationParams).

Local Abbreviation resolved := (match params with Some p => p | None => default_params end).
Local Abbreviation run :=
  (classify_dataframe json_loads json_dumps oracle model df text_col
                      problems_ru translations langs params).
Local Abbreviation run_with :=
  (classify_with_cache json_loads json_dumps oracle model df text_col
                       problems_ru translations langs resolved).
Local Abbreviation row :=
  (classify_row json_loads oracle model df text_col problems_ru translations langs resolved).

Lemma blind_classify_row i st : files_blind (row i st).
Proof.
  unfold classify_row, assign_labels, classify_miss, append_lang_labels, append_pair.
  blind.
Qed.

(** What a run returns, in terms of the loop alone. *)
Lemma returned_run_with c w :
  returned (run_with c w)
  = match for_each (seq 0 (nrows df)) row (initial_state langs c) w with
    | Ok (st, _) =>
      match add_columns df langs st with
      | Ok out => Ok (out, usage_total st)
      | Raise e => Raise e
      end
    | Raise e => Raise e
    end.
Proof.
  unfold classify_with_cache, bind, save_cache, lift, ret.
  destruct (for_each _ _ _ w) as [[st w']|e]; [|reflexivity].
  destruct (add_columns df langs st); reflexivity.
Qed.

(** C8: when the cache directory can be made and the cache file is absent,
    cannot be read or does not decode, the run is the run from the empty
    cache; and whether the final write of the cache file fails or not makes
    no difference to what the call returns (the same rows and usage
    totals, or the same exception from before the write). *)
Theorem cache_file_failures_tolerated (w : world) :
  (cache_dir_ok w = true ->
   cache_file w = Absent \/ cache_file w = Unreadable
   \/ (exists text, cache_file w = Content text /\ json_loads text = None) ->
   load_cache json_loads w = Ok (JObj [], w)
   /\ run w = run_with (JObj []) w)
  /\ (forall failure : file_state,
        returned (run (with_files (cache_file w) (Some failure) w))
        = returned (run (with_files (cache_file w) None w))).
Proof.
  split.
  - intros Hdir Hfile.
    assert (Hload : load_cache json_loads w = Ok (JObj [], w)).
    { unfold load_cache. rewrite Hdir.
      destruct Hfile as [-> | [-> | (text & -> & ->)]]; reflexivity. }
    split; [exact Hload|].
    unfold classify_dataframe, classify_dataframe_body, bind. rewrite Hload. reflexivity.
  - intros failure.
    unfold classify_dataframe, classify_dataframe_body, bind, load_cache.
    cbn [with_files cache_dir_ok cache_file].
    destruct (cache_dir_ok w); [|reflexivity].
    rewrite !returned_run_with.
    pose proof (blind_for_each (seq 0 (nrows df)) row blind_classify_row) as Hblind.
    rewrite (Hblind _ w (cache_file w) (Some failure)).
    rewrite (Hblind _ w (cache_file w) None).
    destruct (for_each _ _ _ w) as [[st w']|e]; reflexivity.
Qed.

End CacheFile.

Lemma cache_file_failures_tolerated_witness :
  let w := mkWorld 0 true (Content (U "{not json")) None in
  let run := classify_dataframe Lite.loads Lite.dumps
               (Examples.answering (Examples.qq "{'problem_ids': [1]}")) (U "gpt")
               Examples.two_rows (U "text") Examples.vocabulary
               (Some Examples.translations) [U "en"] None in
  (load_cache Lite.loads w = Ok (JObj [], w)
   /\ run w
      = classify_with_cache Lite.loads Lite.dumps
          (Examples.answering (Examples.qq "{'problem_ids': [1]}")) (U "gpt")
          Examples.two_rows (U "text") Examples.vocabulary
          (Some Examples.translations) [U "en"] default_params (JObj []) w)
  /\ returned (run (with_files (cache_file w) (Some Unreadable) w))
     = returned (run (with_files (cache_file w) None w)).
Proof.
  intros w run.
  destruct (cache_file_failures_tolerated Lite.loads Lite.dumps
              (Examples.answering (Examples.qq "{'problem_ids': [1]}")) (U "gpt")
              Examples.two_rows (U "text") Examples.vocabulary
              (Some Examples.translations) [U "en"] None w) as [Hstart Hwrite].
  split.
  - apply Hstart; [reflexivity|].
    right; right. exists (U "{not json"). split; [reflexivity|vm_compute; reflexivity].
  - apply Hwrite.
Defined.

(** ** The returned frame *)

Lemma assoc_set_fresh {V} (k : str) (v : V) kv :
  k ∉ map fst kv -> Py.assoc_set k v kv = kv ++ [(k, v)].
Proof.
  induction kv as [|[k' v'] kv IH]; intros Hk; [reflexivity|].
  cbn [Py.assoc_set]. unfold str_eqb.
  rewrite bool_decide_eq_false_2.
  - cbn. f_equal. apply IH. intros Hin. apply Hk. cbn. now right.
  - intros ->. apply Hk. cbn. now left.
Qed.

(** A column set under a name the frame does not have yet. *)
Lemma set_column_fresh name values df out :
  set_column name values df = Ok out ->
  name ∉ map fst (columns df) ->
  nrows out = nrows df
  /\ columns out = columns df ++ [(name, values)]
  /\ length values = nrows df.
Proof.
  unfold set_column. intros Hset Hfresh.
  destruct (bool_decide (length values = nrows df)) eqn:Hlen; [|discriminate].
  apply bool_decide_eq_true_1 in Hlen. injection Hset as <-.
  cbn. rewrite assoc_set_fresh by exact Hfresh. auto.
Qed.

Lemma fold_left_raise {A B} (f : result A -> B -> result A) (l : list B) e :
  (forall b e', f (Raise e') b = Raise e') -> fold_left f l (Raise e) = Raise e.
Proof.
  intros Hf. induction l as [|b l IH]; [reflexivity|]. cbn. rewrite Hf. exact IH.
Qed.

(** Lines 150-152, from a frame whose names are disjoint from the new ones. *)
Lemma add_lang_columns_fresh (st : loop_state) (langs : list str) :
  forall out0 out,
    fold_left (fun acc lang =>
                 out <~ acc ;;
                 out <~ set_lang_column (candidates_name lang) (per_lang_candidates st) lang out ;;
                 set_lang_column (first_name lang) (per_lang_first st) lang out)
              langs (Ok out0) = Ok out ->
    NoDup (map fst (columns out0)
           ++ flat_map (fun lang => [candidates_name lang; first_name lang]) langs) ->
    nrows out = nrows out0
    /\ exists added,
         columns out = columns out0 ++ added
         /\ map fst added = flat_map (fun lang => [candidates_name lang; first_name lang]) langs
         /\ Forall (fun col => length (snd col) = nrows out0) added.
Proof.
  induction langs as [|lang langs IH]; intros out0 out Hrun Hnd.
  - injection Hrun as <-. split; [reflexivity|].
    exists []. rewrite app_nil_r. auto.
  - cbn [fold_left rbind] in Hrun.
    change (flat_map ?f (lang :: langs))
      with (candidates_name lang :: first_name lang :: flat_map f langs) in Hnd.
    destruct (set_lang_column (candidates_name lang) (per_lang_candidates st) lang out0)
      as [out1|e] eqn:H1.
    2:{ cbn [rbind] in Hrun. rewrite fold_left_raise in Hrun; [discriminate|reflexivity]. }
    cbn [rbind] in Hrun.
    destruct (set_lang_column (first_name lang) (per_lang_first st) lang out1)
      as [out2|e] eqn:H2.
    2:{ rewrite fold_left_raise in Hrun; [discriminate|reflexivity]. }
    unfold set_lang_column in H1, H2.
    destruct (per_lang_candidates st !! lang) as [lc|]; [|discriminate].
    destruct (per_lang_first st !! lang) as [lf|]; [|discriminate].
    apply NoDup_app in Hnd as (Hnd0 & Hdisj & Hndn).
    apply NoDup_cons in Hndn as [Hc Hndn]. apply NoDup_cons in Hndn as [Hf Hndn].
    apply set_column_fresh in H1 as (Hr1 & Hc1 & Hl1).
    2:{ intros Hin. apply (Hdisj _ Hin). now left. }
    apply set_column_fresh in H2 as (Hr2 & Hc2 & Hl2).
    2:{ rewrite Hc1, map_app. intros Hin. apply elem_of_app in Hin as [Hin|Hin].
        - apply (Hdisj _ Hin). right; now left.
        - cbn [map fst] in Hin. apply list_elem_of_singleton in Hin.
          apply Hc. rewrite <- Hin. now left. }
    apply IH in Hrun as (Hr & added & Hcols & Hnames & Hlens).
    2:{ rewrite Hc2, Hc1, !map_app. cbn [map fst].
        apply NoDup_app. split; [|split].
        - apply NoDup_app. split; [|split].
          + apply NoDup_app. split; [exact Hnd0|split].
            * intros x Hx Hin. apply list_elem_of_singleton in Hin. subst x.
              apply (Hdisj _ Hx). now left.
            * apply NoDup_singleton.
          + intros x Hx Hin. apply list_elem_of_singleton in Hin. subst x.
            apply elem_of_app in Hx as [Hx|Hx].
            * apply (Hdisj _ Hx). right; now left.
            * apply list_elem_of_singleton in Hx. apply Hc. rewrite <- Hx. now left.
          + apply NoDup_singleton.
        - intros x Hx Hin.
          apply elem_of_app in Hx as [Hx|Hx]; [apply elem_of_app in Hx as [Hx|Hx]|].
          + apply (Hdisj _ Hx). right; now right.
          + apply list_elem_of_singleton in Hx. subst x. apply Hc. now right.
          + apply list_elem_of_singleton in Hx. subst x. apply Hf. exact Hin.
        - exact Hndn. }
    split; [congruence|].
    exists ([(candidates_name lang, map CStr lc); (first_name lang, map CStr lf)] ++ added).
    split; [|split].
    + rewrite Hcols, Hc2, Hc1, <- !app_assoc. reflexivity.
    + rewrite map_app, Hnames. reflexivity.
    + apply Forall_app. split.
      * repeat constructor; cbn [snd]; congruence.
      * eapply Forall_impl; [exact Hlens|]. cbn. intros col Hcol. congruence.
Qed.

Lemma new_column_names_length langs :
  length (new_column_names langs) = (2 + 2 * length langs)%nat.
Proof.
  unfold new_column_names. rewrite length_app. cbn [length].
  induction langs as [|lang langs IH]; [reflexivity|].
  change (flat_map ?f (lang :: langs))
    with (candidates_name lang :: first_name lang :: flat_map f langs).
  cbn [length]. lia.
Qed.

Lemma add_columns_fresh df langs st out :
  add_columns df langs st = Ok out ->
  NoDup (map fst (columns df) ++ new_column_names langs) ->
  nrows out = nrows df
  /\ exists added,
       columns out = columns df ++ added
       /\ map fst added = new_column_names langs
       /\ Forall (fun col => length (snd col) = nrows df) added.
Proof.
  unfold add_columns, new_column_names. intros Hrun Hnd.
  apply NoDup_app in Hnd as (Hnd0 & Hdisj & Hndn).
  change ([?a; ?b] ++ ?l) with (a :: b :: l) in Hndn, Hdisj.
  apply NoDup_cons in Hndn as [Hc Hndn]. apply NoDup_cons in Hndn as [Hf Hndn].
  destruct (set_column (U "problem_russ_candidates") (map CStr (candidates_ru st)) df)
    as [out1|e] eqn:H1; [|discriminate].
  cbn [rbind] in Hrun.
  destruct (set_column (U "problem_russ") (map CStr (first_ru st)) out1)
    as [out2|e] eqn:H2; [|discriminate].
  cbn [rbind] in Hrun.
  apply set_column_fresh in H1 as (Hr1 & Hc1 & Hl1).
  2:{ intros Hin. apply (Hdisj _ Hin). now left. }
  apply set_column_fresh in H2 as (Hr2 & Hc2 & Hl2).
  2:{ rewrite Hc1, map_app. intros Hin. apply elem_of_app in Hin as [Hin|Hin].
      - apply (Hdisj _ Hin). right; now left.
      - cbn [map fst] in Hin. apply list_elem_of_singleton in Hin.
        apply Hc. rewrite <- Hin. now left. }
  apply add_lang_columns_fresh in Hrun as (Hr & added & Hcols & Hnames & Hlens).
  2:{ rewrite Hc2, Hc1, !map_app. cbn [map fst].
      apply NoDup_app. split; [|split].
      - apply NoDup_app. split; [|split].
        + apply NoDup_app. split; [exact Hnd0|split].
          * intros x Hx Hin. apply list_elem_of_singleton in Hin. subst x.
            apply (Hdisj _ Hx). now left.
          * apply NoDup_singleton.
        + intros x Hx Hin. apply list_elem_of_singleton in Hin. subst x.
          apply elem_of_app in Hx as [Hx|Hx].
          * apply (Hdisj _ Hx). right; now left.
          * apply list_elem_of_singleton in Hx. apply Hc. rewrite <- Hx. now left.
        + apply NoDup_singleton.
      - intros x Hx Hin.
        apply elem_of_app in Hx as [Hx|Hx]; [apply elem_of_app in Hx as [Hx|Hx]|].
        + apply (Hdisj _ Hx). right; now right.
        + apply list_elem_of_singleton in Hx. subst x. apply Hc. now right.
        + apply list_elem_of_singleton in Hx. subst x. apply Hf. exact Hin.
      - exact Hndn. }
  split; [congruence|].
  exists ([(U "problem_russ_candidates", map CStr (candidates_ru st));
           (U "problem_russ", map CStr (first_ru st))] ++ added).
  split; [|split].
  - rewrite Hcols, Hc2, Hc1, <- !app_assoc. reflexivity.
  - rewrite map_app, Hnames. reflexivity.
  - apply Forall_app. split.
    + repeat constructor; cbn [snd]; congruence.
    + eapply Forall_impl; [exact Hlens|]. cbn. intros col Hcol. congruence.
Qed.

Section Frame.

Context (json_loads : str -> option json) (json_dumps : json -> str)
        (oracle : nat -> str -> list message -> Z -> option (str * usage)).
Context (model : str) (df : frame) (text_col : str) (problems_ru : list str)
        (translations : option (gmap str (gmap str str))) (langs : list str)
        (params : option ClassificationParams).

(** C10 (amended): when the call returns and none of the column names it
    sets is already a column of the input or set twice, the returned frame
    has the rows of the input, its columns with their values, in their
    order, and after them the two columns of the base language and the two
    columns of each requested language, each with one value per row. *)
Theorem new_columns_appended (w w' : world) (out : frame) (u : usage) :
  classify_dataframe json_loads json_dumps oracle model df text_col
                     problems_ru translations langs params w = Ok ((out, u), w') ->
  NoDup (map fst (columns df) ++ new_column_names langs) ->
  nrows out = nrows df
  /\ exists added,
       columns out = columns df ++ added
       /\ map fst added = new_column_names langs
       /\ length added = (2 + 2 * length langs)%nat
       /\ Forall (fun col => length (snd col) = nrows df) added.
Proof.
  unfold classify_dataframe, classify_dataframe_body, classify_with_cache, bind,
    load_cache, save_cache, lift, ret.
  destruct (cache_dir_ok w); [|discriminate].
  destruct (for_each _ _ _ w) as [[st w1]|e]; [|discriminate].
  destruct (add_columns df langs st) as [out'|e] eqn:Hadd; [|discriminate].
  intros [= <- _ _] Hnd.
  destruct (add_columns_fresh df langs st out' Hadd Hnd) as (Hr & added & Hc & Hn & Hl).
  split; [exact Hr|]. exists added. repeat split; try assumption.
  rewrite <- (length_map fst), Hn. apply new_column_names_length.
Qed.

End Frame.

(** C10, as stated, fails: the input already has a column [problem_russ];
    the call replaces its values and appends three columns, not four. *)
Lemma existing_column_overwritten :
  let df := mkFrame 1 [ (U "text", [CStr (U "no electricity for 3 days")]);
                        (U "problem_russ", [CStr (U "water")]) ] in
  exists out u,
    returned (classify_dataframe Lite.loads Lite.dumps
                (Examples.answering (Examples.qq "{'problem_ids': [1]}")) (U "gpt")
                df (U "text") Examples.vocabulary
                (Some Examples.translations) [U "en"] None Examples.fresh_world)
    = Ok (out, u)
    /\ row_get df (U "problem_russ") 0 = Ok (CStr (U "water"))
    /\ row_get out (U "problem_russ") 0 = Ok (CStr (U "power outages"))
    /\ length (columns out) = (length (columns df) + 3)%nat.
Proof.
  intros df. eexists _, _. repeat split; vm_compute; reflexivity.
Qed.

Lemma new_columns_appended_witness :
  exists out u w',
    classify_dataframe Lite.loads Lite.dumps
      (Examples.answering (Examples.qq "{'problem_ids': [1]}")) (U "gpt")
      Examples.two_rows (U "text") Examples.vocabulary
      (Some Examples.translations) [U "en"] None Examples.fresh_world
    = Ok ((out, u), w')
    /\ nrows out = 2%nat
    /\ exists added,
         columns out = columns Examples.two_rows ++ added
         /\ map fst added = [U "problem_russ_candidates"; U "problem_russ";
                             U "problem_en_candidates"; U "problem_en"]
         /\ length added = 4%nat.
Proof.
  assert (Hrun : exists r,
            classify_dataframe Lite.loads Lite.dumps
              (Examples.answering (Examples.qq "{'problem_ids': [1]}")) (U "gpt")
              Examples.two_rows (U "text") Examples.vocabulary
              (Some Examples.translations) [U "en"] None Examples.fresh_world
            = Ok r).
  { eexists. vm_compute. reflexivity. }
  destruct Hrun as [[[out u] w'] Hrun].
  destruct (new_columns_appended Lite.loads Lite.dumps
              (Examples.answering (Examples.qq "{'problem_ids': [1]}")) (U "gpt")
              Examples.two_rows (U "text") Examples.vocabulary
              (Some Examples.translations) [U "en"] None
              Examples.fresh_world w' out u Hrun)
    as (Hr & added & Hc & Hn & Hl & _).
  - vm_compute. repeat constructor; rewrite ?list_elem_of_In; cbn;
      intuition discriminate.
  - exists out, u, w'. split; [exact Hrun|]. split; [exact Hr|].
    exists added. split; [exact Hc|]. split; [rewrite Hn; vm_compute; reflexivity|exact Hl].
Defined.

(** ** The translator *)

Section Translator.

Context (json_loads : str -> option json)
        (oracle : nat -> str -> list message -> Z -> option (str * usage))
        (py_repr : json -> str).
Context (model : str) (problems_ru : list str).

(** A translation written at a place other than [(ru, lang)] leaves the
    lookup at [(ru, lang)] as it was. *)
Lemma translation_of_set_other (res : gmap str (gmap str str)) d r l t ru lang :
  res !! r = Some d ->
  r <> ru \/ l <> lang ->
  translation_of (<[ r := <[ l := t ]> d ]> res) ru lang = translation_of res ru lang.
Proof.
  intros Hd Hne. unfold translation_of. rewrite lookup_insert.
  destruct (decide (r = ru)) as [->|Hr]; [|reflexivity].
  rewrite Hd. destruct Hne as [Hne|Hne]; [congruence|].
  rewrite lookup_insert. destruct (decide (l = lang)); [congruence|reflexivity].
Qed.

Lemma covers_set (res : gmap str (gmap str str)) d r l t :
  covers problems_ru res -> covers problems_ru (<[ r := <[ l := t ]> d ]> res).
Proof.
  intros H ru Hin. rewrite lookup_insert.
  destruct (decide (r = ru)); [eauto|exact (H ru Hin)].
Qed.

(** Lines 64-66 over a list of (position, label) entries of the vocabulary,
    for a language whose translations are the list [arr]. *)
Lemma translate_entries_ok (arr : list json) (lang : str) (es : list (nat * str)) :
  Forall (fun p => problems_ru !! fst p = Some (snd p)) es ->
  forall res, covers problems_ru res ->
  exists res',
    fold_left (fun acc p => res <~ acc ;; translate_entry py_repr (JArr arr) lang p res)
              es (Ok res) = Ok res'
    /\ covers problems_ru res'
    /\ (forall ru l, l <> lang \/ ru ∉ firstn (length arr) problems_ru ->
          translation_of res' ru l = translation_of res ru l).
Proof.
  induction es as [|[idx r] es IH]; intros Hes res Hres.
  - exists res. repeat split; exact Hres.
  - apply Forall_cons in Hes as [Hp Hes]. cbn [fst snd] in Hp.
    cbn [fold_left rbind]. unfold translate_entry at 2. cbn [Py.len rbind fst snd].
    destruct (bool_decide (idx < length arr)%nat) eqn:Hidx.
    + apply bool_decide_eq_true_1 in Hidx.
      destruct (nth_error arr idx) as [v|] eqn:Hv.
      2:{ apply nth_error_None in Hv. lia. }
      cbn [Py.index]. rewrite Hv. cbn [rbind]. unfold set_translation.
      destruct (Hres r) as [d Hd].
      { apply list_elem_of_lookup. eauto. }
      rewrite Hd.
      destruct (IH Hes _ (covers_set res d r lang (strip (str_of_json py_repr v)) Hres))
        as (res' & Hrun & Hcov & Hsame).
      exists res'. split; [exact Hrun|]. split; [exact Hcov|].
      intros ru l Hne. rewrite (Hsame ru l Hne).
      apply translation_of_set_other; [exact Hd|].
      destruct Hne as [Hne|Hne]; [right; congruence|left].
      intros ->. apply Hne. apply list_elem_of_lookup. exists idx.
      rewrite lookup_take_lt by exact Hidx. exact Hp.
    + destruct (IH Hes res Hres) as (res' & Hrun & Hcov & Hsame).
      exists res'. auto.
Qed.

Lemma enumerate_entries (V : list str) :
  forall k, Forall (fun p => (k <= fst p)%nat /\ V !! (fst p - k)%nat = Some (snd p))
                   (imap (fun idx ru => ((k + idx)%nat, ru)) V).
Proof.
  induction V as [|a V IH]; intros k; [constructor|].
  cbn [imap]. constructor.
  - cbn [fst snd]. split; [lia|]. replace (k + 0 - k)%nat with 0%nat by lia. reflexivity.
  - rewrite (imap_ext _ (fun idx ru => ((S k + idx)%nat, ru))).
    2:{ intros i x _. cbn. f_equal. lia. }
    eapply Forall_impl; [apply IH|]. cbn. intros [idx r] [Hle Hl]. cbn [fst snd] in *.
    split; [lia|]. replace (idx - k)%nat with (S (idx - S k)) by lia. exact Hl.
Qed.

(** Lines 62-66 for one language whose entry is a list (or is absent). *)
Lemma translate_lang_ok (tmembers : list (str * json)) (arr : list json) (lang : str) res :
  Py.get (JObj tmembers) lang (JArr []) = Ok (JArr arr) ->
  covers problems_ru res ->
  exists res',
    translate_lang py_repr (JObj tmembers) problems_ru lang res = Ok res'
    /\ covers problems_ru res'
    /\ (forall ru l, l <> lang \/ ru ∉ firstn (length arr) problems_ru ->
          translation_of res' ru l = translation_of res ru l).
Proof.
  intros Hget Hres. unfold translate_lang. rewrite Hget. cbn [rbind].
  apply translate_entries_ok; [|exact Hres].
  rewrite (imap_ext _ (fun idx ru => ((0 + idx)%nat, ru))) by reflexivity.
  eapply Forall_impl; [apply (enumerate_entries problems_ru 0)|].
  cbn. intros [idx r] [_ Hl]. cbn [fst snd] in *. now rewrite Nat.sub_0_r in Hl.
Qed.

(** Lines 62-66 over the requested languages. *)
Lemma translate_langs_ok (tmembers : list (str * json)) (langs : list str) :
  (forall lang, lang ∈ langs ->
     exists arr, Py.get (JObj tmembers) lang (JArr []) = Ok (JArr arr)) ->
  forall res, covers problems_ru res ->
  exists res',
    fold_left (fun acc lang => res <~ acc ;;
                 translate_lang py_repr (JObj tmembers) problems_ru lang res)
              langs (Ok res) = Ok res'
    /\ covers problems_ru res'
    /\ (forall ru lang arr,
          Py.get (JObj tmembers) lang (JArr []) = Ok (JArr arr) ->
          ru ∉ firstn (length arr) problems_ru ->
          translation_of res' ru lang = translation_of res ru lang).
Proof.
  induction langs as [|l langs IH]; intros Hlists res Hres.
  - exists res. repeat split; exact Hres.
  - destruct (Hlists l) as [arr_l Hl]; [now left|].
    destruct (translate_lang_ok tmembers arr_l l res Hl Hres) as (res1 & Hrun1 & Hcov1 & Hsame1).
    destruct (IH (fun lang Hin => Hlists lang (list_elem_of_further _ _ _ Hin)) res1 Hcov1)
      as (res' & Hrun & Hcov & Hsame).
    exists res'. cbn [fold_left rbind]. rewrite Hrun1.
    split; [exact Hrun|]. split; [exact Hcov|].
    intros ru lang arr Hget Hnot. rewrite (Hsame ru lang arr Hget Hnot).
    apply Hsame1. destruct (decide (lang = l)) as [->|Hne]; [right|now left].
    rewrite Hl in Hget. injection Hget as ->. exact Hnot.
Qed.

Lemma covers_initial :
  covers problems_ru (list_to_map (map (fun ru : str => (ru, (∅ : gmap str str))) problems_ru)).
Proof.
  intros ru Hin.
  destruct (_ !! ru) eqn:E; [eauto|exfalso].
  apply not_elem_of_list_to_map in E. apply E.
  apply list_elem_of_fmap. exists (ru, ∅). split; [reflexivity|].
  apply list_elem_of_fmap. exists ru. split; [reflexivity|exact Hin].
Qed.

Lemma translation_of_initial ru lang :
  translation_of (list_to_map (map (fun ru : str => (ru, (∅ : gmap str str))) problems_ru))
                 ru lang = [].
Proof.
  unfold translation_of.
  destruct (_ !! ru) as [d|] eqn:E; [|reflexivity].
  apply elem_of_list_to_map_2 in E.
  apply list_elem_of_fmap in E as (r & [= _ ->] & _). reflexivity.
Qed.

(** C9 (amended): when the response decodes to an object whose
    [translations] member is an object (or is absent) that gives a list, or
    nothing, for every requested language, [translate_problems] returns;
    and for a language whose list is shorter than the vocabulary, a label
    at a position beyond the list that does not also stand at a position
    the list covers has the empty string as its translation, as
    [classify_dataframe] looks it up. *)
Theorem short_translation_list_tolerated
    (langs : list str) (w : world) (resp : str) (u : usage)
    (members tmembers : list (str * json)) :
  oracle (oracle_calls w) model (build_translate_prompt problems_ru langs) 2000
    = Some (resp, u) ->
  _safe_json_loads json_loads resp = Ok (JObj members) ->
  Py.get (JObj members) (U "translations") (JObj []) = Ok (JObj tmembers) ->
  (forall lang, lang ∈ langs ->
     exists arr, Py.get (JObj tmembers) lang (JArr []) = Ok (JArr arr)) ->
  exists tr,
    translate_problems json_loads oracle py_repr model problems_ru langs w
    = Ok ((tr, u), count_call w)
    /\ forall lang arr idx ru,
         Py.get (JObj tmembers) lang (JArr []) = Ok (JArr arr) ->
         problems_ru !! idx = Some ru ->
         (length arr <= idx)%nat ->
         ru ∉ firstn (length arr) problems_ru ->
         translation_of tr ru lang = [].
Proof.
  intros Ho Hj Ht Hlists.
  destruct (translate_langs_ok tmembers langs Hlists _ covers_initial)
    as (tr & Hrun & _ & Hsame).
  exists tr. split.
  - unfold translate_problems, chat_complete_ex, bind, lift, ret.
    rewrite Ho. cbn [fst snd]. rewrite Hj, Ht, Hrun. reflexivity.
  - intros lang arr idx ru Hget _ _ Hnot.
    rewrite (Hsame ru lang arr Hget Hnot). apply translation_of_initial.
Qed.

End Translator.

(** C9, as stated, fails: the vocabulary repeats the label [a] at its third
    position; the list for [en] has two entries, and the label at the third
    position is looked up as [x], not as the empty string. *)
Lemma repeated_label_takes_earlier_translation :
  exists tr u,
    returned (translate_problems Lite.loads
                (Examples.answering (Examples.qq "{'translations': {'en': ['x', 'y']}}"))
                Lite.repr (U "gpt") [U "a"; U "b"; U "a"] [U "en"] Examples.fresh_world)
    = Ok (tr, u)
    /\ [U "a"; U "b"; U "a"] !! 2%nat = Some (U "a")
    /\ translation_of tr (U "a") (U "en") = U "x".
Proof.
  eexists _, _. repeat split; vm_compute; reflexivity.
Qed.

Lemma short_translation_list_tolerated_witness :
  exists tr,
    translate_problems Lite.loads
      (Examples.answering (Examples.qq "{'translations': {'en': ['coupures']}}"))
      Lite.repr (U "gpt") Examples.vocabulary [U "en"] Examples.fresh_world
    = Ok ((tr, mkUsage 10 2 12), count_call Examples.fresh_world)
    /\ translation_of tr (U "housing cost") (U "en") = [].
Proof.
  destruct (short_translation_list_tolerated Lite.loads
              (Examples.answering (Examples.qq "{'translations': {'en': ['coupures']}}"))
              Lite.repr (U "gpt") Examples.vocabulary [U "en"] Examples.fresh_world
              (Examples.qq "{'translations': {'en': ['coupures']}}") (mkUsage 10 2 12)
              [(U "translations", JObj [(U "en", JArr [JStr (U "coupures")])])]
              [(U "en", JArr [JStr (U "coupures")])])
    as (tr & Hrun & Hshort).
  - reflexivity.
  - vm_compute; reflexivity.
  - vm_compute; reflexivity.
  - intros lang Hin. apply list_elem_of_singleton in Hin. subst lang.
    exists [JStr (U "coupures")]. vm_compute; reflexivity.
  - exists tr. split; [exact Hrun|].
    apply (Hshort (U "en") [JStr (U "coupures")] 1%nat (U "housing cost")).
    + vm_compute; reflexivity.
    + reflexivity.
    + cbn; lia.
    + vm_compute. intros Hin. apply list_elem_of_singleton in Hin. discriminate.
Defined.
